(** * Causal depthwise 1-D convolution: the Python interface of causal-conv1d

    A shallow embedding of [causal_conv1d/causal_conv1d_interface.py]:
    the two reference engines [causal_conv1d_ref] and
    [causal_conv1d_update_ref], written with torch primitives, and the
    dispatch code around the compiled kernels ([CausalConv1dFn] and
    [causal_conv1d_update]).

    Conventions of the embedding.
    - Tensor elements live in one scalar type [T] with the operations of
      the class [Scalar]. No law of arithmetic is assumed on [T] unless a
      statement says so: the laws of exact arithmetic are the class
      [ExactArith], which the integers have and binary64 floats
      ([float_scalar]) do not.
    - [causal_conv1d_ref] and [causal_conv1d_update_ref] are the engines on
      tensors of one dtype, where the [.to(dtype)] casts of the source are
      the identity. [causal_conv1d_ref_cast] and
      [causal_conv1d_update_ref_cast] are the engines with these casts, for
      a signal whose dtype is not the one of the weight.
    - A tensor of rank 2 or 3 is a record of its [shape] and of its values as
      nested lists (batch, then channel, then time or tap).
    - [torch.sum] adds the taps onto [0] ([vsum]) and the bias is added to
      the finished sum; [F.conv1d] starts from the bias and adds the taps
      to it one after the other. In exact arithmetic the two agree, in
      floating point they need not.
    - A Python exception is a value [Raise e] of type [result]; a function
      that mutates a buffer returns the buffer next to its result, so the
      buffer is also known when the call raises.
    - [activation] is [None] or a string, as the callers pass it.
    - The compiled extension [causal_conv1d_cuda] is not part of the
      Python file: its entry points are the fields of the class
      [CudaKernels], and the dispatch code is stated for every instance. *)

From Stdlib Require Import ZArith Lia.
From Stdlib Require Import Floats.PrimFloat.
From stdpp Require Import base option list strings.

(** ** Exceptions and results *)

Inductive exn : Type :=
  | NotImplementedError
  | AssertionError
  | RuntimeError
  | IndexError
  | ValueError
  | AttributeError.

Inductive result (A : Type) : Type :=
  | Ok (a : A)
  | Raise (e : exn).
Arguments Ok {A} a.
Arguments Raise {A} e.

#[global] Instance result_ret : MRet result := fun A a => Ok a.
#[global] Instance result_bind : MBind result := fun A B f r =>
  match r with
  | Ok a => f a
  | Raise e => Raise e
  end.
#[global] Instance result_fmap : FMap result := fun A B f r =>
  match r with
  | Ok a => Ok (f a)
  | Raise e => Raise e
  end.

(** ** Scalars *)

(** The arithmetic the engines use on tensor elements: [0], [+], [*] and
    the gated nonlinearity [silu y = y * sigmoid y]. *)
Class Scalar (T : Type) : Type := {
  s_zero : T;
  s_add : T -> T -> T;
  s_mul : T -> T -> T;
  s_silu : T -> T
}.

(** Integers as scalars, to run the definitions on concrete tensors. The
    nonlinearity is a stand-in with the same type: any function will do for
    running the engines, which only apply it. *)
#[global] Instance Z_scalar : Scalar Z := {|
  s_zero := 0%Z;
  s_add := Z.add;
  s_mul := Z.mul;
  s_silu := fun y => (y * y - 1)%Z
|}.

(** The laws of exact arithmetic that relate the two orders in which the
    engines accumulate: addition is associative and commutative with [0]
    as neutral element, multiplication is commutative. *)
Class ExactArith (T : Type) `{Scalar T} : Prop := {
  s_add_assoc : forall a b c : T, s_add a (s_add b c) = s_add (s_add a b) c;
  s_add_comm : forall a b : T, s_add a b = s_add b a;
  s_add_zero_r : forall a : T, s_add a s_zero = a;
  s_mul_comm : forall a b : T, s_mul a b = s_mul b a
}.

(** binary64 floats as scalars, the arithmetic of [torch.float64]: sums
    and products round to nearest, ties to even. The nonlinearity is again
    a stand-in. *)
#[global] Instance float_scalar : Scalar float := {|
  s_zero := 0%float;
  s_add := PrimFloat.add;
  s_mul := PrimFloat.mul;
  s_silu := fun y => (y * y - 1)%float
|}.

(** ** Tensors *)

Record Tensor2 (T : Type) : Type := mkT2 {
  shape2 : nat * nat;
  data2 : list (list T)
}.
Arguments mkT2 {T} _ _.
Arguments shape2 {T} _.
Arguments data2 {T} _.

Record Tensor3 (T : Type) : Type := mkT3 {
  shape3 : nat * nat * nat;
  data3 : list (list (list T))
}.
Arguments mkT3 {T} _ _.
Arguments shape3 {T} _.
Arguments data3 {T} _.

(** [t] is a well-formed tensor of shape (n, m). *)
Definition has_shape2 {T} (t : Tensor2 T) (n m : nat) : Prop :=
  shape2 t = (n, m) /\
  length (data2 t) = n /\
  Forall (fun r => length r = m) (data2 t).

(** [t] is a well-formed tensor of shape (B, D, L). *)
Definition has_shape3 {T} (t : Tensor3 T) (B D L : nat) : Prop :=
  shape3 t = (B, D, L) /\
  length (data3 t) = B /\
  Forall (fun xb => length xb = D /\ Forall (fun r => length r = L) xb) (data3 t).

(** A bias is a rank-1 tensor: its shape is its length. *)
Definition has_len {T} (bias : option (list T)) (D : nat) : Prop :=
  forall bv, bias = Some bv -> length bv = D.

Definition opt_shape3 {T} (hidden : option (Tensor3 T)) (B D S : nat) : Prop :=
  forall h, hidden = Some h -> has_shape3 h B D S.

(** Apply [f] to every vector along the last axis of a rank-3 value. *)
Definition map_rows {A B} (f : list A -> B) (d : list (list (list A))) : list (list B) :=
  (fun xb : list (list A) => f <$> xb) <$> d.

(** [activation in choices] of Python, on the values callers pass. *)
Definition activation_in (activation : option string)
    (choices : list (option string)) : bool :=
  bool_decide (activation ∈ choices).

Section Reference.
Context {T : Type} `{Scalar T}.

(** *** torch primitives, on well-shaped arguments

    The docstrings of the source fix the shapes of the arguments. Of
    torch's own validation the primitives keep the cases the engines can
    reach with arguments of these shapes: a negative padding or an empty
    time axis in [F.conv1d], a window axis without a last slot in the
    index assignment, a bias that cannot be broadcast in [out += bias]. *)

(** [t[b, d, i]], reading [0] out of range. *)
Definition get3 (t : Tensor3 T) (b d i : nat) : T :=
  nth i (nth d (nth b (data3 t) []) []) s_zero.

Definition get2 (t : Tensor2 T) (b d : nat) : T :=
  nth d (nth b (data2 t) []) s_zero.

(** [t[b, d, :]]. *)
Definition row3 (t : Tensor3 T) (b d : nat) : list T :=
  nth d (nth b (data3 t) []) [].

(** [torch.cat([h, x], dim=-1)]. *)
Definition torch_cat (h x : Tensor3 T) : Tensor3 T :=
  let '(B, D, L) := shape3 x in
  let '(_, _, Sw) := shape3 h in
  mkT3 (B, D, Sw + L) (zip_with (zip_with app) (data3 h) (data3 x)).

(** [t[..., :n]] for [n >= 0]. *)
Definition slice_to (n : nat) (t : Tensor3 T) : Tensor3 T :=
  let '(B, D, L) := shape3 t in
  mkT3 (B, D, n `min` L) (map_rows (take n) (data3 t)).

(** [t[..., n:]] for [n >= 0]. *)
Definition slice_from (n : nat) (t : Tensor3 T) : Tensor3 T :=
  let '(B, D, L) := shape3 t in
  mkT3 (B, D, L - n) (map_rows (drop n) (data3 t)).

(** [t[:, :, i]] for [0 <= i]. *)
Definition select_last (i : nat) (t : Tensor3 T) : Tensor2 T :=
  let '(B, D, _) := shape3 t in
  mkT2 (B, D) (map_rows (fun r => nth i r s_zero) (data3 t)).

(** [torch.sum(l)] of a vector: the taps are accumulated from the last
    one backwards onto [0]. *)
Definition vsum (l : list T) : T := foldr s_add s_zero l.

(** [F.silu], elementwise. *)
Definition F_silu3 (t : Tensor3 T) : Tensor3 T :=
  mkT3 (shape3 t) (map_rows (fun r : list T => s_silu <$> r) (data3 t)).

Definition F_silu2 (t : Tensor2 T) : Tensor2 T :=
  mkT2 (shape2 t) ((fun r : list T => s_silu <$> r) <$> data2 t).

(** [bias[d]], and [0] where no bias is supplied. *)
Definition bias_at (bias : option (list T)) (d : nat) : T :=
  match bias with
  | Some bv => nth d bv s_zero
  | None => s_zero
  end.

(** One channel of [F.conv1d]: the signal is padded with [padding] zeros
    on both sides and the filter [w] slides over it (cross-correlation):
    [out[j] = b + w[0] * padded[j] + ... + w[W-1] * padded[j + W-1]], the
    products added one after the other to the bias [b] of the channel. *)
Definition conv1d_channel (w : list T) (b : T) (padding : nat) (xs : list T) : list T :=
  let padded := replicate padding s_zero ++ xs ++ replicate padding s_zero in
  (fun j => foldl s_add b (zip_with s_mul w (take (length w) (drop j padded))))
    <$> seq 0 (length padded + 1 - length w).

(** [F.conv1d(input, weight.unsqueeze(1), bias, padding=padding, groups=dim)]:
    channel [d] of every batch entry is filtered with [weight[d]] alone.
    A negative padding is rejected, and so is a signal whose time axis is
    empty. *)
Definition F_conv1d_depthwise (input : Tensor3 T) (weight : Tensor2 T)
    (bias : option (list T)) (padding : Z) : result (Tensor3 T) :=
  if (padding <? 0)%Z then Raise RuntimeError else
  let p := Z.to_nat padding in
  let '(B, D, L) := shape3 input in
  let '(_, W) := shape2 weight in
  if bool_decide (L = 0) then Raise RuntimeError else
  Ok (mkT3 (B, D, L + 2 * p + 1 - W)
        ((fun xb : list (list T) =>
            imap (fun d xs => conv1d_channel (nth d (data2 weight) []) (bias_at bias d) p xs) xb)
           <$> data3 input)).

(** [torch.roll(l, shifts)] along the one axis of a vector:
    [out[i] = l[(i - shifts) mod n]]. *)
Definition roll_vec (shifts : Z) (l : list T) : list T :=
  let k := Z.to_nat ((- shifts) mod Z.of_nat (length l)) in
  drop k l ++ take k l.

(** [torch.roll(t, shifts=shifts, dims=-1)]. *)
Definition torch_roll (t : Tensor3 T) (shifts : Z) : Tensor3 T :=
  mkT3 (shape3 t) (map_rows (roll_vec shifts) (data3 t)).

(** [t[:, :, -1] = x]: the last slot of every window is overwritten; a
    window axis of size 0 has no slot [-1]. *)
Definition setitem_last (t : Tensor3 T) (x : Tensor2 T) : result (Tensor3 T) :=
  let '(_, _, W) := shape3 t in
  if bool_decide (W = 0) then Raise IndexError else
  Ok (mkT3 (shape3 t)
        (zip_with (zip_with (fun r v => <[W - 1 := v]> r)) (data3 t) (data2 x))).

(** [t * weight] with [weight] of shape (D, W) broadcast over the batch. *)
Definition mul_bcast (t : Tensor3 T) (weight : Tensor2 T) : Tensor3 T :=
  mkT3 (shape3 t)
    ((fun sb : list (list T) => zip_with (zip_with s_mul) sb (data2 weight))
       <$> data3 t).

(** [torch.sum(t, dim=-1)]. *)
Definition torch_sum_last (t : Tensor3 T) : Tensor2 T :=
  let '(B, D, _) := shape3 t in
  mkT2 (B, D) (map_rows vsum (data3 t)).

(** [out += bias] with [out] of shape (B, D): a bias of shape (D,) is
    broadcast over the batch, one of shape (1,) over batch and channels;
    a bias of another length cannot be broadcast to the shape of [out]. *)
Definition iadd_bcast (out : Tensor2 T) (bias : list T) : result (Tensor2 T) :=
  let '(_, D) := shape2 out in
  if bool_decide (length bias = D)
  then Ok (mkT2 (shape2 out) ((fun ob : list T => zip_with s_add ob bias) <$> data2 out))
  else if bool_decide (length bias = 1)
  then Ok (mkT2 (shape2 out)
             ((fun ob : list T => (fun y => s_add y (nth 0 bias s_zero)) <$> ob)
                <$> data2 out))
  else Raise RuntimeError.

(** *** The reference engines *)

Definition causal_conv1d_ref (x : Tensor3 T) (weight : Tensor2 T)
    (bias : option (list T)) (hidden : option (Tensor3 T))
    (activation : option string) : result (Tensor3 T) :=
  if negb (activation_in activation [None; Some "silu"; Some "swish"])
  then Raise NotImplementedError else
  let x := match hidden with
           | Some hidden => torch_cat hidden x
           | None => x
           end in
  let seqlen := (shape3 x).2 in
  let '(dim, width) := shape2 weight in
  out ← F_conv1d_depthwise x weight bias (Z.of_nat width - 1);
  let out := slice_to seqlen out in
  let out := match hidden with
             | Some hidden => slice_from (shape3 hidden).2 out
             | None => out
             end in
  Ok (match activation with
      | None => out
      | Some _ => F_silu3 out
      end).

(** The state buffer is mutated in place: the function returns its final
    contents together with the result. The buffer is written before the
    bias is added, so a bias that does not fit raises with the buffer
    already advanced. *)
Definition causal_conv1d_update_ref (x : Tensor2 T) (conv_state : Tensor3 T)
    (weight : Tensor2 T) (bias : option (list T))
    (activation : option string) : result (Tensor2 T) * Tensor3 T :=
  if negb (activation_in activation [None; Some "silu"; Some "swish"])
  then (Raise NotImplementedError, conv_state) else
  let '(batch, dim) := shape2 x in
  let width := (shape2 weight).2 in
  if negb (bool_decide (shape3 conv_state = (batch, dim, width)))
  then (Raise AssertionError, conv_state) else
  if negb (bool_decide (shape2 weight = (dim, width)))
  then (Raise AssertionError, conv_state) else
  let conv_state := torch_roll conv_state (-1) in
  match setitem_last conv_state x with
  | Raise e => (Raise e, conv_state)
  | Ok conv_state =>
      let out := torch_sum_last (mul_bcast conv_state weight) in
      match (match bias with
             | Some bias => iadd_bcast out bias
             | None => Ok out
             end) with
      | Raise e => (Raise e, conv_state)
      | Ok out =>
          (Ok (match activation with
               | None => out
               | Some _ => F_silu2 out
               end), conv_state)
      end
  end.

(** *** The engines on a signal of another dtype than the weight

    [to_weight_dtype] is [t.to(weight.dtype)] and [to_input_dtype] is
    [t.to(dtype_in)], elementwise; both are the identity when the signal
    has the dtype of the weight. *)

Definition cast3 (cast : T -> T) (t : Tensor3 T) : Tensor3 T :=
  mkT3 (shape3 t) (map_rows (fun r : list T => cast <$> r) (data3 t)).

Definition cast2 (cast : T -> T) (t : Tensor2 T) : Tensor2 T :=
  mkT2 (shape2 t) ((fun r : list T => cast <$> r) <$> data2 t).

(** [causal_conv1d_ref] with its casts: the signal and the initial state
    are cast to the dtype of the weight (lines 64 and 69), the result, the
    activation applied, is cast back to the dtype of the signal (line 82). *)
Definition causal_conv1d_ref_cast (to_weight_dtype to_input_dtype : T -> T)
    (x : Tensor3 T) (weight : Tensor2 T)
    (bias : option (list T)) (hidden : option (Tensor3 T))
    (activation : option string) : result (Tensor3 T) :=
  cast3 to_input_dtype <$>
    causal_conv1d_ref (cast3 to_weight_dtype x) weight bias
      (cast3 to_weight_dtype <$> hidden) activation.

(** [causal_conv1d_update_ref] with its cast: the output, the activation
    applied, is cast to the dtype of the timestep (line 121). The state
    buffer keeps its own dtype, which the timestep is taken to fit, so
    that writing it into the buffer does not round. *)
Definition causal_conv1d_update_ref_cast (to_input_dtype : T -> T)
    (x : Tensor2 T) (conv_state : Tensor3 T)
    (weight : Tensor2 T) (bias : option (list T))
    (activation : option string) : result (Tensor2 T) * Tensor3 T :=
  let r := causal_conv1d_update_ref x conv_state weight bias activation in
  (cast2 to_input_dtype <$> r.1, r.2).

End Reference.

(** ** The kernel dispatch code *)

(** What the dispatch code sees of a tensor: its sizes, its strides and its
    elements in logical (row-major) order. *)
Record Strided (A : Type) : Type := mkStrided {
  sizes : list nat;
  strides : list Z;
  elems : list A
}.
Arguments mkStrided {A} _ _ _.
Arguments sizes {A} _.
Arguments strides {A} _.
Arguments elems {A} _.

(** [t.stride(i)] for [0 <= i]: an axis the tensor does not have is an
    [IndexError]. *)
Definition stride {A} (t : Strided A) (i : nat) : result Z :=
  match strides t !! i with
  | Some s => Ok s
  | None => Raise IndexError
  end.

Definition numel {A} (t : Strided A) : nat := foldr Nat.mul 1 (sizes t).

(** torch's contiguity test, from the last axis to the first: axes of size
    1 are skipped, every other axis must have the stride of a dense
    row-major layout. [dims] lists (size, stride) from the last axis on. *)
Fixpoint dense_from (dims : list (nat * Z)) (z : Z) : bool :=
  match dims with
  | [] => true
  | (n, s) :: rest =>
      if bool_decide (n = 1) then dense_from rest z
      else bool_decide (s = z) && dense_from rest (z * Z.of_nat n)
  end.

(** [t.is_contiguous()]: a tensor without elements is contiguous. *)
Definition is_contiguous {A} (t : Strided A) : bool :=
  bool_decide (numel t = 0) || dense_from (reverse (zip (sizes t) (strides t))) 1.

(** Strides of a fresh dense row-major tensor of the given sizes. *)
Fixpoint dense_strides (szs : list nat) : list Z :=
  match szs with
  | [] => []
  | _ :: rest =>
      Z.of_nat (foldr (fun n acc => Nat.max n 1 * acc) 1 rest) :: dense_strides rest
  end.

(** [t.contiguous()]: [t] itself when it is contiguous, else a dense copy
    with the same sizes and elements. *)
Definition contiguous {A} (t : Strided A) : Strided A :=
  if is_contiguous t then t
  else mkStrided (sizes t) (dense_strides (sizes t)) (elems t).

(** [t.contiguous() if t is not None else None]. *)
Definition opt_contiguous {A} (t : option (Strided A)) : option (Strided A) :=
  match t with
  | Some t => Some (contiguous t)
  | None => None
  end.

(** A tensor of rank [n]: it has [n] sizes and [n] strides. *)
Definition rank {A} (t : Strided A) (n : nat) : Prop :=
  length (sizes t) = n /\ length (strides t) = n.

(** [t.stride(2) != 1 and t.stride(1) != 1], evaluated left to right. *)
Definition no_unit_stride {A} (t : Strided A) : result bool :=
  s2 ← stride t 2;
  if bool_decide (s2 ≠ 1%Z)
  then s1 ← stride t 1; mret (bool_decide (s1 ≠ 1%Z))
  else mret false.

(** The compiled extension [causal_conv1d_cuda]: its three entry points
    are taken as given. The update kernel writes the state buffer: it
    returns the output and the final buffer. *)
Class CudaKernels (T : Type) : Type := {
  cuda_causal_conv1d_fwd :
    Strided T -> Strided T -> option (Strided T) -> option (Strided T) ->
    option (Strided Z) -> bool -> Strided T;
  cuda_causal_conv1d_bwd :
    Strided T -> Strided T -> option (Strided T) -> Strided T ->
    option (Strided Z) -> option (Strided T) -> bool ->
    Strided T * Strided T * option (Strided T);
  cuda_causal_conv1d_update :
    Strided T -> Strided T -> Strided T -> option (Strided T) -> bool ->
    Strided T * Strided T
}.

(** The autograd context: the tensors saved for backward and the
    attribute [activation], both unset on a fresh context. *)
Record Ctx (T : Type) : Type := mkCtx {
  saved_tensors :
    option (Strided T * Strided T * option (Strided T) * option (Strided Z));
  ctx_activation : option bool
}.
Arguments mkCtx {T} _ _.
Arguments saved_tensors {T} _.
Arguments ctx_activation {T} _.

Definition fresh_ctx {T} : Ctx T := mkCtx None None.

Definition save_for_backward {T} (ctx : Ctx T)
    (saved : Strided T * Strided T * option (Strided T) * option (Strided Z)) : Ctx T :=
  mkCtx (Some saved) (ctx_activation ctx).

Definition set_activation {T} (ctx : Ctx T) (a : bool) : Ctx T :=
  mkCtx (saved_tensors ctx) (Some a).

Section Dispatch.
Context {T : Type} `{CudaKernels T}.

(** [CausalConv1dFn.forward]: returns the output and the context as the
    call leaves it. *)
Definition CausalConv1dFn_forward (ctx : Ctx T) (x weight : Strided T)
    (bias hidden : option (Strided T)) (seq_idx : option (Strided Z))
    (activation : option string) : result (Strided T) * Ctx T :=
  if negb (activation_in activation [None; Some "silu"; Some "swish"])
  then (Raise NotImplementedError, ctx) else
  match no_unit_stride x with
  | Raise e => (Raise e, ctx)
  | Ok fix_layout =>
      let x := if fix_layout then contiguous x else x in
      let bias := opt_contiguous bias in
      let seq_idx := opt_contiguous seq_idx in
      let ctx := save_for_backward ctx (x, weight, bias, seq_idx) in
      let act := activation_in activation [Some "silu"; Some "swish"] in
      let ctx := set_activation ctx act in
      let out := cuda_causal_conv1d_fwd x weight bias hidden seq_idx act in
      (Ok out, ctx)
  end.

(** [CausalConv1dFn.backward]: the returned tuple, as the list of its
    entries. A context that [forward] did not fill has nothing to unpack
    and no attribute [activation]. *)
Definition CausalConv1dFn_backward (ctx : Ctx T) (dout : Strided T)
    : result (list (option (Strided T))) :=
  match saved_tensors ctx with
  | None => Raise ValueError
  | Some (x, weight, bias, seq_idx) =>
      match no_unit_stride dout with
      | Raise e => Raise e
      | Ok fix_layout =>
          let dout := if fix_layout then contiguous dout else dout in
          match ctx_activation ctx with
          | None => Raise AttributeError
          | Some act =>
              let '(dx, dweight, dbias) :=
                cuda_causal_conv1d_bwd x weight bias dout seq_idx None act in
              Ok [Some dx; Some dweight;
                  if bool_decide (bias ≠ None) then dbias else None;
                  None; None]
          end
      end
  end.

(** [causal_conv1d_update]: returns the output and the state buffer as
    the call leaves it. *)
Definition causal_conv1d_update (x conv_state weight : Strided T)
    (bias : option (Strided T)) (activation : option string)
    : result (Strided T) * Strided T :=
  if negb (activation_in activation [None; Some "silu"; Some "swish"])
  then (Raise NotImplementedError, conv_state) else
  let activation := activation_in activation [Some "silu"; Some "swish"] in
  let '(out, conv_state) :=
    cuda_causal_conv1d_update x conv_state weight bias activation in
  (Ok out, conv_state).

End Dispatch.

(** The arguments of [CausalConv1dFn.forward] after [ctx], in the order of
    its signature. torch.autograd pairs the entries of the tuple that
    [backward] returns with these arguments by position. *)
Definition forward_args : list string :=
  ["x"; "weight"; "bias"; "hidden"; "seq_idx"; "activation"]%string.

(** The entry of the tuple [grads] that falls on the argument [arg] of
    [forward]: [None] when the tuple has no entry at its position. *)
Definition grad_of {A} (grads : list A) (arg : string) : option A :=
  match list_find (eq arg) forward_args with
  | Some (i, _) => grads !! i
  | None => None
  end.

(** The arguments of [forward] on which the tuple [grads] has an entry. *)
Definition args_with_entry {A} (grads : list A) : list string :=
  take (length grads) forward_args.

(** The check of torch.autograd on the tuple that [backward] returns: it
    needs one entry for every argument of [forward]; further entries are
    dropped when all of them are None. *)
Definition autograd_check {A} (grads : list (option A)) : result (list (option A)) :=
  let n := length forward_args in
  if bool_decide (length grads < n) then Raise RuntimeError
  else if forallb (fun g => bool_decide (g = None :> option A)) (drop n grads)
  then Ok (take n grads)
  else Raise RuntimeError.

(** A stand-in for the compiled extension that hands back tensors it was
    given: the forward kernel its signal, the backward kernel the output
    gradient, the weight and the bias, the update kernel the timestep and
    the untouched state. It makes the arguments of a dispatch visible in
    the result of a run. *)
#[global] Instance echo_kernels : CudaKernels Z := {|
  cuda_causal_conv1d_fwd := fun x _ _ _ _ _ => x;
  cuda_causal_conv1d_bwd := fun _ weight bias dout _ _ _ => (dout, weight, bias);
  cuda_causal_conv1d_update := fun x conv_state _ _ _ => (x, conv_state)
|}.

(** ** Notions of the specification *)

Section Notions.
Context {T : Type} `{Scalar T}.

(** [sum over k in [0, W) of f k], accumulated as [vsum] does. *)
Definition tap_sum (W : nat) (f : nat -> T) : T := vsum (f <$> seq 0 W).

(** [b + f 0 + ... + f (W-1)], accumulated as [F.conv1d] does: each term
    added to what has been summed so far, from [b] on. *)
Definition tap_acc (b : T) (W : nat) (f : nat -> T) : T := foldl s_add b (f <$> seq 0 W).

(** The width S of the initial state, 0 without one. *)
Definition hidden_width (hidden : option (Tensor3 T)) : nat :=
  match hidden with
  | Some h => (shape3 h).2
  | None => 0
  end.

(** The source stream of batch entry [b], channel [d]: the initial state,
    if any, followed by the signal. *)
Definition src (hidden : option (Tensor3 T)) (x : Tensor3 T) (b d : nat) : list T :=
  match hidden with
  | Some h => row3 h b d ++ row3 x b d
  | None => row3 x b d
  end.

(** [l[i]] for an integer position [i], reading 0 outside of [l]. *)
Definition zget (l : list T) (i : Z) : T :=
  if (i <? 0)%Z then s_zero else nth (Z.to_nat i) l s_zero.

(** [src[i]]: position [i] of the source stream, counted from its first
    sample; positions before the start of [src] read 0. *)
Definition src_at (hidden : option (Tensor3 T)) (x : Tensor3 T) (b d : nat) (i : Z) : T :=
  zget (src hidden x b d) i.

(** [y + bias[d]] when a bias is supplied. *)
Definition add_bias (bias : option (list T)) (d : nat) (y : T) : T :=
  match bias with
  | Some bv => s_add y (nth d bv s_zero)
  | None => y
  end.

(** The activation selected by the flag: silu for ["silu"] and
    ["swish"], the identity for [None]. *)
Definition act_of (activation : option string) (y : T) : T :=
  if activation_in activation [Some "silu"; Some "swish"] then s_silu y else y.

(** [torch.zeros(B, D, W)]. *)
Definition zeros3 (B D W : nat) : Tensor3 T :=
  mkT3 (B, D, W) (replicate B (replicate D (replicate W s_zero))).

(** The streaming loop: the update engine is called once per timestep on
    the one state buffer; the outputs of the calls are collected. *)
Fixpoint stream_update_ref (steps : list (Tensor2 T)) (conv_state : Tensor3 T)
    (weight : Tensor2 T) (bias : option (list T)) (activation : option string)
    : list (result (Tensor2 T)) * Tensor3 T :=
  match steps with
  | [] => ([], conv_state)
  | x :: rest =>
      let '(out, conv_state) :=
        causal_conv1d_update_ref x conv_state weight bias activation in
      let '(outs, conv_state) :=
        stream_update_ref rest conv_state weight bias activation in
      (out :: outs, conv_state)
  end.

(** The timesteps [x[:, :, 0], ..., x[:, :, L-1]] of a signal. *)
Definition timesteps (x : Tensor3 T) : list (Tensor2 T) :=
  (fun t => select_last t x) <$> seq 0 (shape3 x).2.

End Notions.

(** ** Channel-wise views

    What the engines compute for one batch entry and one channel, in the
    terms of the primitives above; the lemmas below relate the tensors the
    engines return to these views. *)

Section Views.
Context {T : Type} `{Scalar T}.

(** The samples of the initial state of batch entry [b], channel [d]. *)
Definition hidden_row (hidden : option (Tensor3 T)) (b d : nat) : list T :=
  match hidden with
  | Some h => row3 h b d
  | None => []
  end.

(** One channel of [causal_conv1d_ref]: convolve the state followed by the
    signal, keep the first [S + L] samples, drop the [S] that belong to the
    state, apply the activation. *)
Definition ref_channel (w : list T) (bias : option (list T)) (d : nat)
    (hs xs : list T) (activation : option string) : list T :=
  act_of activation <$>
    drop (length hs)
      (take (length hs + length xs)
         (conv1d_channel w (bias_at bias d) (length w - 1) (hs ++ xs))).

(** The state buffer after [t] steps of streaming over [x] from zeros:
    every channel holds the last [W] samples before time [t], zeros
    standing for the times before the signal. *)
Definition window_state (x : Tensor3 T) (W t : nat) : Tensor3 T :=
  let '(B, D, _) := shape3 x in
  mkT3 (B, D, W)
    (map_rows (fun xs => take W (drop t (replicate W s_zero ++ xs))) (data3 x)).

End Views.

(** Product of the sizes other than 1, as [dense_from] accumulates it. *)
Definition span (dims : list (nat * Z)) : Z :=
  foldr (fun '(n, _) acc => if bool_decide (n = 1) then acc else (Z.of_nat n * acc)%Z) 1%Z dims.

(** ** More of the interface *)

Section Carried.
Context {T : Type} `{Scalar T}.

(** The state buffer that streaming over [x] from the buffer [s0] holds
    after [t] calls: the samples [t .. t+W-1] of [s0] followed by [x]. *)
Definition carried_state (s0 x : Tensor3 T) (W t : nat) : Tensor3 T :=
  slice_to W (slice_from t (torch_cat s0 x)).

End Carried.

(** A layout the kernels take: unit stride along the time axis or along
    the channel axis, or contiguous. *)
Definition kernel_layout {A} (t : Strided A) : Prop :=
  stride t 2 = Ok 1%Z \/ stride t 1 = Ok 1%Z \/ is_contiguous t = true.

Section DispatchDefs.
Context {T : Type} `{CudaKernels T}.

(** [causal_conv1d_fn]: [CausalConv1dFn.apply] runs [forward] on a context
    of its own and returns the output. *)
Definition causal_conv1d_fn (x weight : Strided T)
    (bias hidden : option (Strided T)) (seq_idx : option (Strided Z))
    (activation : option string) : result (Strided T) :=
  (CausalConv1dFn_forward fresh_ctx x weight bias hidden seq_idx activation).1.

(** The tensor a dispatch hands on for [t]: [t.contiguous()] when neither
    the time axis nor the channel axis of [t] has stride 1, else [t]. *)
Definition dispatched (t : Strided T) : Strided T :=
  match no_unit_stride t with
  | Ok true => contiguous t
  | _ => t
  end.
End DispatchDefs.

(** ** Concrete tensors for the examples *)

Definition ex_x : Tensor3 Z := mkT3 (1, 2, 4) [[[1; 2; 3; 4]; [5; 6; 7; 8]]]%Z.

(** [ex_x] with its last timestep changed. *)
Definition ex_x' : Tensor3 Z := mkT3 (1, 2, 4) [[[1; 2; 3; 40]; [5; 6; 7; 80]]]%Z.

Definition ex_weight : Tensor2 Z := mkT2 (2, 3) [[1; 10; 100]; [2; 3; 5]]%Z.

(** A filter with one tap per channel. *)
Definition ex_weight1 : Tensor2 Z := mkT2 (2, 1) [[3]; [5]]%Z.

Definition ex_bias : list Z := [1000; 2000]%Z.

(** The cast to a dtype that holds the even integers only: it rounds
    down. It stands for the rounding of a cast to a narrower dtype. *)
Definition ex_narrow (y : Z) : Z := (2 * (y / 2))%Z.

Definition ex_hidden : Tensor3 Z := mkT3 (1, 2, 2) [[[7; 9]; [11; 13]]]%Z.

Definition ex_state : Tensor3 Z := mkT3 (1, 2, 3) [[[1; 2; 3]; [4; 5; 6]]]%Z.

Definition ex_step : Tensor2 Z := mkT2 (1, 2) [[7; 8]]%Z.

(** A signal of shape (1, 2, 2) viewed with strides (8, 4, 2): neither
    its time axis nor its channel axis has stride 1. *)
Definition ex_signal : Strided Z := mkStrided [1; 2; 2] [8; 4; 2]%Z [1; 2; 3; 4]%Z.

Definition ex_filter : Strided Z := mkStrided [2; 3] [3; 1]%Z [1; 10; 100; 2; 3; 5]%Z.

Definition ex_dout : Strided Z := mkStrided [1; 2; 2] [4; 2; 1]%Z [1; 1; 1; 1]%Z.

Definition ex_bias_strided : Strided Z := mkStrided [2] [1]%Z [1000; 2000]%Z.

(** A binary64 signal of one channel, a filter and a bias on which the
    order of the additions shows. *)
Definition fl_x : Tensor3 float := mkT3 (1, 1, 2) [[[0x1p53; 1]]]%float.

Definition fl_weight : Tensor2 float := mkT2 (1, 2) [[1; 1]]%float.

Definition fl_bias : list float := [(-0x1p53)%float].

(** [ex_x] with its second channel changed. *)
Definition ex_x_other : Tensor3 Z := mkT3 (1, 2, 4) [[[1; 2; 3; 4]; [50; 60; 70; 80]]]%Z.

(** [ex_state] with the oldest slot of every window changed. *)
Definition ex_state' : Tensor3 Z := mkT3 (1, 2, 3) [[[9; 2; 3]; [9; 5; 6]]]%Z.

(** Discharges shape and membership side conditions on concrete tensors. *)
Ltac shape_facts :=
  repeat first
    [ progress intros
    | progress unfold has_len, opt_shape3
    | match goal with
      | H : Some _ = Some _ |- _ => injection H as <-
      | H : None = Some _ |- _ => discriminate H
      end
    | constructor ].

(** ** Running the engines *)

Example causal_conv1d_ref_run :
  causal_conv1d_ref ex_x ex_weight (Some ex_bias) None None
  = Ok (mkT3 (1, 2, 4) [[[1100; 1210; 1321; 1432]; [2025; 2045; 2063; 2073]]]%Z).
Proof. reflexivity. Qed.

Example causal_conv1d_ref_run_hidden :
  causal_conv1d_ref ex_x ex_weight None (Some ex_hidden) None
  = Ok (mkT3 (1, 2, 4) [[[197; 219; 321; 432]; [86; 71; 63; 73]]]%Z).
Proof. reflexivity. Qed.

Example causal_conv1d_update_ref_run :
  causal_conv1d_update_ref ex_step ex_state ex_weight (Some ex_bias) None
  = (Ok (mkT2 (1, 2) [[1732; 2068]]%Z),
     mkT3 (1, 2, 3) [[[2; 3; 7]; [5; 6; 8]]]%Z).
Proof. reflexivity. Qed.

(** A filter without taps: the padding [width - 1] is negative, and the
    state buffer has no last slot. *)
Example causal_conv1d_ref_no_taps :
  causal_conv1d_ref ex_x (mkT2 (2, 0) [[]; []]) None None None = Raise RuntimeError.
Proof. reflexivity. Qed.

(** A signal without timesteps is rejected by the convolution; with an
    initial state in front of it the input is not empty and the output has
    no timestep. *)
Example causal_conv1d_ref_empty_signal :
  causal_conv1d_ref (slice_to 0 ex_x) ex_weight None None None = Raise RuntimeError.
Proof. reflexivity. Qed.

Example causal_conv1d_ref_empty_signal_with_state :
  causal_conv1d_ref (slice_to 0 ex_x) ex_weight None (Some ex_hidden) None
  = Ok (mkT3 (1, 2, 0) [[[]; []]]).
Proof. reflexivity. Qed.

(** A bias of three entries for two channels: the addition fails after the
    state buffer has been advanced. *)
Example causal_conv1d_update_ref_bad_bias :
  causal_conv1d_update_ref ex_step ex_state ex_weight (Some [1; 2; 3]%Z) None
  = (Raise RuntimeError, mkT3 (1, 2, 3) [[[2; 3; 7]; [5; 6; 8]]]%Z).
Proof. reflexivity. Qed.

Example causal_conv1d_update_ref_no_taps :
  (causal_conv1d_update_ref ex_step (mkT3 (1, 2, 0) [[[]; []]]) (mkT2 (2, 0) [[]; []])
     None None).1 = Raise IndexError.
Proof. reflexivity. Qed.

Example causal_conv1d_update_ref_bad_state :
  causal_conv1d_update_ref ex_step ex_hidden ex_weight None None
  = (Raise AssertionError, ex_hidden).
Proof. reflexivity. Qed.

(** A signal whose time axis has stride 1 reaches the kernel as it is. *)
Example CausalConv1dFn_forward_run :
  CausalConv1dFn_forward fresh_ctx ex_dout ex_filter None None None (Some "silu")
  = (Ok ex_dout, mkCtx (Some (ex_dout, ex_filter, None, None)) (Some true)).
Proof. reflexivity. Qed.

(** Without a bias in the checkpoint the third entry is None, whatever the
    kernel returned there. *)
Example CausalConv1dFn_backward_run :
  CausalConv1dFn_backward (mkCtx (Some (ex_signal, ex_filter, None, None)) (Some false))
    ex_dout
  = Ok [Some ex_dout; Some ex_filter; None; None; None].
Proof. reflexivity. Qed.

(** ** Facts on lists *)

Lemma nth_fmap_lt {A B} (f : A -> B) (l : list A) i d1 d2 :
  i < length l -> nth i (f <$> l) d2 = f (nth i l d1).
Proof.
  intros Hi. destruct (lookup_lt_is_Some_2 l i Hi) as [a Ha].
  rewrite (nth_lookup_Some l i d1 a Ha).
  apply nth_lookup_Some. by rewrite list_lookup_fmap, Ha.
Qed.

Lemma nth_zip_with_lt {A B C} (f : A -> B -> C) (l : list A) (k : list B) i da db dc :
  i < length l -> i < length k ->
  nth i (zip_with f l k) dc = f (nth i l da) (nth i k db).
Proof.
  intros Hl Hk.
  destruct (lookup_lt_is_Some_2 l i Hl) as [a Ha].
  destruct (lookup_lt_is_Some_2 k i Hk) as [b Hb].
  rewrite (nth_lookup_Some l i da a Ha), (nth_lookup_Some k i db b Hb).
  apply nth_lookup_Some. by rewrite lookup_zip_with, Ha; simpl; rewrite Hb.
Qed.

Lemma zip_with_seq {A B C} (f : A -> B -> C) (l : list A) (k : list B) n da db :
  length l = n -> length k = n ->
  zip_with f l k = (fun i => f (nth i l da) (nth i k db)) <$> seq 0 n.
Proof.
  intros Hl Hk. apply (nth_ext _ _ (f da db) (f da db)).
  - rewrite length_zip_with, length_fmap, length_seq. lia.
  - intros i Hi. rewrite length_zip_with in Hi.
    rewrite (nth_zip_with_lt f l k i da db) by lia.
    rewrite (nth_fmap_lt _ _ i 0) by (rewrite length_seq; lia).
    rewrite seq_nth by lia. done.
Qed.

Lemma nth_take_drop {A} (l : list A) j n i d :
  i < n -> nth i (take n (drop j l)) d = nth (j + i) l d.
Proof.
  intros Hi. rewrite !nth_lookup, lookup_take_lt, lookup_drop by done. done.
Qed.

Section Sums.
Context {T : Type} `{Scalar T}.

Lemma tap_sum_ext W (f g : nat -> T) :
  (forall k, k < W -> f k = g k) -> tap_sum W f = tap_sum W g.
Proof.
  intros Hfg. unfold tap_sum. f_equal.
  apply list_fmap_ext. intros i k Hk.
  apply lookup_seq in Hk as [-> Hlt]. by apply Hfg.
Qed.

Lemma tap_acc_ext b W (f g : nat -> T) :
  (forall k, k < W -> f k = g k) -> tap_acc b W f = tap_acc b W g.
Proof.
  intros Hfg. unfold tap_acc. f_equal.
  apply list_fmap_ext. intros i k Hk.
  apply lookup_seq in Hk as [-> Hlt]. by apply Hfg.
Qed.

Lemma zget_nat (l : list T) (i : nat) : zget l (Z.of_nat i) = nth i l s_zero.
Proof.
  unfold zget. destruct (Z.ltb_spec (Z.of_nat i) 0); [lia|]. by rewrite Nat2Z.id.
Qed.

Lemma zget_neg (l : list T) (i : Z) : (i < 0)%Z -> zget l i = s_zero.
Proof. intros Hi. unfold zget. destruct (Z.ltb_spec i 0); [done|lia]. Qed.

Lemma zget_ge (l : list T) (i : Z) : (Z.of_nat (length l) <= i)%Z -> zget l i = s_zero.
Proof.
  intros Hi. unfold zget. destruct (Z.ltb_spec i 0); [done|].
  apply nth_overflow. lia.
Qed.

Lemma zget_app_l (l k : list T) (i : Z) :
  (i < Z.of_nat (length l))%Z -> zget (l ++ k) i = zget l i.
Proof.
  intros Hi. unfold zget. destruct (Z.ltb_spec i 0); [done|].
  apply app_nth1. lia.
Qed.

Lemma zget_app_r (l k : list T) (i : Z) :
  (Z.of_nat (length l) <= i)%Z -> zget (l ++ k) i = zget k (i - Z.of_nat (length l)).
Proof.
  intros Hi. unfold zget.
  destruct (Z.ltb_spec i 0); [lia|].
  destruct (Z.ltb_spec (i - Z.of_nat (length l)) 0); [lia|].
  rewrite app_nth2 by lia. f_equal. lia.
Qed.

Lemma zget_replicate n (i : Z) : zget (replicate n s_zero) i = s_zero.
Proof.
  unfold zget. destruct (Z.ltb_spec i 0); [done|].
  rewrite nth_lookup. destruct (replicate n s_zero !! Z.to_nat i) eqn:E; [|done].
  apply lookup_replicate in E as [-> _]. done.
Qed.

(** Reading the zero-padded signal. *)
Lemma zget_padded (xs : list T) p q (j : Z) :
  zget (replicate p s_zero ++ xs ++ replicate q s_zero) j = zget xs (j - Z.of_nat p).
Proof.
  destruct (Z.lt_ge_cases j (Z.of_nat p)) as [Hlt|Hge].
  - rewrite zget_app_l by (rewrite length_replicate; lia).
    rewrite zget_replicate. symmetry. apply zget_neg. lia.
  - rewrite zget_app_r by (rewrite length_replicate; lia).
    rewrite length_replicate.
    destruct (Z.lt_ge_cases (j - Z.of_nat p) (Z.of_nat (length xs))) as [Hin|Hout].
    + by rewrite zget_app_l.
    + rewrite zget_app_r, zget_replicate by done. symmetry. by apply zget_ge.
Qed.

Lemma conv1d_channel_length (w : list T) c p xs :
  length (conv1d_channel w c p xs) = length xs + 2 * p + 1 - length w.
Proof.
  unfold conv1d_channel. rewrite length_fmap, length_seq, !length_app, !length_replicate. lia.
Qed.

(** Sample [j] of one channel of the convolution: the taps accumulated
    onto the bias [c] of the channel. *)
Lemma conv1d_channel_nth (w : list T) c p xs j :
  j < length xs + 2 * p + 1 - length w ->
  nth j (conv1d_channel w c p xs) s_zero =
  tap_acc c (length w)
    (fun k => s_mul (nth k w s_zero) (zget xs (Z.of_nat j + Z.of_nat k - Z.of_nat p))).
Proof.
  intros Hj. unfold conv1d_channel.
  set (padded := replicate p s_zero ++ xs ++ replicate p s_zero).
  assert (Hlen : length padded = length xs + 2 * p).
  { unfold padded. rewrite !length_app, !length_replicate. lia. }
  rewrite (nth_fmap_lt _ _ j 0) by (rewrite length_seq; lia).
  rewrite seq_nth by lia. simpl.
  rewrite (zip_with_seq _ _ _ (length w) s_zero s_zero); [|done|].
  2:{ rewrite length_take, length_drop. lia. }
  apply tap_acc_ext. intros k Hk. f_equal.
  rewrite nth_take_drop by done.
  rewrite <- zget_nat. unfold padded. rewrite zget_padded. f_equal. lia.
Qed.
End Sums.

Section Exact.
Context {T : Type} `{Scalar T} `{!ExactArith T}.

(** In exact arithmetic a sum started from [b] is the sum started from
    [0] with [b] added at the end. *)
Lemma foldl_add_vsum (b : T) (l : list T) :
  foldl s_add b l = s_add (vsum l) b.
Proof.
  revert b. induction l as [|a l IH]; intros b; simpl.
  - by rewrite (s_add_comm s_zero b), s_add_zero_r.
  - rewrite IH, (s_add_comm b a), s_add_assoc. by rewrite (s_add_comm a).
Qed.

(** In exact arithmetic the accumulation of [F.conv1d] is the sum over the
    taps with the bias added after it. *)
Lemma tap_acc_exact (bias : option (list T)) d W (f : nat -> T) :
  tap_acc (bias_at bias d) W f = add_bias bias d (tap_sum W f).
Proof.
  unfold tap_acc, tap_sum. rewrite foldl_add_vsum.
  destruct bias as [bv|]; simpl; [done|]. apply s_add_zero_r.
Qed.
End Exact.

Section Shapes.
Context {T : Type} `{Scalar T}.

Lemma has_shape3_rows (t : Tensor3 T) B D L :
  has_shape3 t B D L -> forall b, b < B ->
  length (nth b (data3 t) []) = D /\
  forall d, d < D -> length (row3 t b d) = L.
Proof.
  intros (_ & Hlen & Hall) b Hb.
  destruct (lookup_lt_is_Some_2 (data3 t) b) as [xb Hxb]; [lia|].
  unfold row3. rewrite (nth_lookup_Some _ _ _ _ Hxb).
  destruct (Forall_lookup_1 _ _ _ _ Hall Hxb) as [HD Hrows].
  split; [done|]. intros d Hd.
  destruct (lookup_lt_is_Some_2 xb d) as [r Hr]; [lia|].
  rewrite (nth_lookup_Some _ _ _ _ Hr).
  apply (Forall_lookup_1 _ _ _ _ Hrows Hr).
Qed.

Lemma has_shape3_intro (t : Tensor3 T) B D L :
  shape3 t = (B, D, L) -> length (data3 t) = B ->
  (forall b, b < B -> length (nth b (data3 t) []) = D /\
                      forall d, d < D -> length (row3 t b d) = L) ->
  has_shape3 t B D L.
Proof.
  intros Hs Hlen Hrows. split; [done|]. split; [done|].
  apply Forall_lookup_2. intros b xb Hxb.
  assert (Hb : b < B) by (apply lookup_lt_Some in Hxb; lia).
  destruct (Hrows b Hb) as [HD HL].
  unfold row3 in HL. rewrite (nth_lookup_Some _ _ _ _ Hxb) in HD, HL.
  split; [done|]. apply Forall_lookup_2. intros d r Hr.
  assert (Hd : d < D) by (apply lookup_lt_Some in Hr; lia).
  specialize (HL d Hd). by rewrite (nth_lookup_Some _ _ _ _ Hr) in HL.
Qed.

Lemma has_shape2_rows (t : Tensor2 T) n m :
  has_shape2 t n m -> forall i, i < n -> length (nth i (data2 t) []) = m.
Proof.
  intros (_ & Hlen & Hall) i Hi.
  destruct (lookup_lt_is_Some_2 (data2 t) i) as [r Hr]; [lia|].
  rewrite (nth_lookup_Some _ _ _ _ Hr).
  apply (Forall_lookup_1 _ _ _ _ Hall Hr).
Qed.

Lemma has_shape2_intro (t : Tensor2 T) n m :
  shape2 t = (n, m) -> length (data2 t) = n ->
  (forall i, i < n -> length (nth i (data2 t) []) = m) ->
  has_shape2 t n m.
Proof.
  intros Hs Hlen Hrows. split; [done|]. split; [done|].
  apply Forall_lookup_2. intros i r Hr.
  assert (Hi : i < n) by (apply lookup_lt_Some in Hr; lia).
  specialize (Hrows i Hi). by rewrite (nth_lookup_Some _ _ _ _ Hr) in Hrows.
Qed.

(** Two tensors of one shape with the same rows are equal. *)
Lemma tensor3_ext (t1 t2 : Tensor3 T) B D L :
  has_shape3 t1 B D L -> has_shape3 t2 B D L ->
  (forall b d, b < B -> d < D -> row3 t1 b d = row3 t2 b d) ->
  t1 = t2.
Proof.
  intros H1 H2 Hrows.
  pose proof (has_shape3_rows _ _ _ _ H1) as R1.
  pose proof (has_shape3_rows _ _ _ _ H2) as R2.
  destruct H1 as (S1 & L1 & _), H2 as (S2 & L2 & _).
  destruct t1 as [s1 d1], t2 as [s2 d2]; simpl in *. subst s1 s2. f_equal.
  apply (nth_ext _ _ [] []); [lia|]. intros b Hb.
  destruct (R1 b) as [D1 _]; [lia|]. destruct (R2 b) as [D2 _]; [lia|].
  apply (nth_ext _ _ [] []); [lia|]. intros d Hd.
  apply (Hrows b d); lia.
Qed.

Lemma tensor2_ext (t1 t2 : Tensor2 T) n m :
  has_shape2 t1 n m -> has_shape2 t2 n m ->
  (forall i j, i < n -> j < m -> get2 t1 i j = get2 t2 i j) ->
  t1 = t2.
Proof.
  intros H1 H2 Hget.
  pose proof (has_shape2_rows _ _ _ H1) as R1.
  pose proof (has_shape2_rows _ _ _ H2) as R2.
  destruct H1 as (S1 & L1 & _), H2 as (S2 & L2 & _).
  destruct t1 as [s1 d1], t2 as [s2 d2]; simpl in *. subst s1 s2. f_equal.
  apply (nth_ext _ _ [] []); [lia|]. intros i Hi.
  specialize (R1 i). specialize (R2 i).
  apply (nth_ext _ _ s_zero s_zero); [lia|]. intros j Hj.
  apply (Hget i j); lia.
Qed.

(** Rows of a value mapped along its last axis. *)
Lemma nth_map_rows {A B} (f : list A -> B) (dat : list (list (list A))) b d dflt :
  b < length dat -> d < length (nth b dat []) ->
  nth d (nth b (map_rows f dat) []) dflt = f (nth d (nth b dat []) []).
Proof.
  intros Hb Hd. unfold map_rows.
  rewrite (nth_fmap_lt _ _ b []) by done.
  by rewrite (nth_fmap_lt _ _ d []).
Qed.

Lemma length_map_rows {A B} (f : list A -> B) (dat : list (list (list A))) :
  length (map_rows f dat) = length dat.
Proof. unfold map_rows. by rewrite length_fmap. Qed.

Lemma length_nth_map_rows {A B} (f : list A -> B) (dat : list (list (list A))) b :
  length (nth b (map_rows f dat) []) = length (nth b dat []).
Proof.
  unfold map_rows. destruct (decide (b < length dat)) as [Hb|Hb].
  - rewrite (nth_fmap_lt _ _ b []) by done. by rewrite length_fmap.
  - rewrite !nth_overflow; [done|lia|rewrite length_fmap; lia].
Qed.

(** A well-shaped tensor mapped along its last axis is well-shaped. *)
Lemma has_shape3_map_rows (f : list T -> list T) (t : Tensor3 T) B D L L' :
  has_shape3 t B D L ->
  (forall r, length r = L -> length (f r) = L') ->
  has_shape3 (mkT3 (B, D, L') (map_rows f (data3 t))) B D L'.
Proof.
  intros Ht Hf. pose proof (has_shape3_rows _ _ _ _ Ht) as R.
  destruct Ht as (_ & Hlen & _).
  apply has_shape3_intro; simpl; [done|by rewrite length_map_rows|].
  intros b Hb. destruct (R b Hb) as [HD HL].
  rewrite length_nth_map_rows. split; [done|].
  intros d Hd. unfold row3; simpl.
  rewrite nth_map_rows by lia. apply Hf. by apply HL.
Qed.
End Shapes.

Lemma fmap_id_ext {A} (f : A -> A) (l : list A) :
  (forall a, f a = a) -> f <$> l = l.
Proof.
  intros Hf. rewrite <- (list_fmap_id l) at 2.
  apply list_fmap_ext. intros ? a _. apply Hf.
Qed.

Lemma activation_cases (activation : option string) :
  activation ∈ [None; Some "silu"; Some "swish"] ->
  activation = None \/ activation = Some "silu" \/ activation = Some "swish".
Proof.
  rewrite !elem_of_cons, elem_of_nil. tauto.
Qed.

Section ChannelFacts.
Context {T : Type} `{Scalar T}.

Lemma src_hidden_row (hidden : option (Tensor3 T)) (x : Tensor3 T) b d :
  src hidden x b d = hidden_row hidden b d ++ row3 x b d.
Proof. by destruct hidden. Qed.

Lemma activation_in_valid (activation : option string) :
  activation ∈ [None; Some "silu"; Some "swish"] ->
  activation_in activation [None; Some "silu"; Some "swish"] = true.
Proof. intros Hin. unfold activation_in. by apply bool_decide_eq_true. Qed.

Lemma act_of_Some s (y : T) :
  Some s ∈ [None; Some "silu"; Some "swish"] -> act_of (Some s) y = s_silu y.
Proof.
  intros Hin. apply activation_cases in Hin as [Hs|[Hs|Hs]]; [done| |];
    injection Hs as ->; reflexivity.
Qed.

Lemma length_ref_channel w bias d hs xs activation :
  1 <= length w ->
  length (ref_channel w bias d hs xs activation) = length xs.
Proof.
  intros Hw. unfold ref_channel.
  rewrite length_fmap, length_drop, length_take.
  rewrite conv1d_channel_length, length_app. lia.
Qed.

Lemma conv_rows (xdat : list (list (list T))) (wdat : list (list T)) bias p b d D :
  b < length xdat -> length (nth b xdat []) = D -> d < D ->
  nth d (nth b ((fun xb : list (list T) =>
                   imap (fun d xs => conv1d_channel (nth d wdat []) (bias_at bias d) p xs) xb)
                <$> xdat) []) [] =
  conv1d_channel (nth d wdat []) (bias_at bias d) p (nth d (nth b xdat []) []).
Proof.
  intros Hb Hxb Hd.
  rewrite (nth_fmap_lt _ _ b []) by done.
  destruct (lookup_lt_is_Some_2 (nth b xdat []) d) as [r Hr]; [lia|].
  rewrite (nth_lookup_Some _ _ _ _ Hr).
  apply nth_lookup_Some. by rewrite list_lookup_imap, Hr.
Qed.

Lemma length_conv_rows (xdat : list (list (list T))) (wdat : list (list T)) bias p b D :
  b < length xdat -> length (nth b xdat []) = D ->
  length (nth b ((fun xb : list (list T) =>
                   imap (fun d xs => conv1d_channel (nth d wdat []) (bias_at bias d) p xs) xb)
                <$> xdat) []) = D.
Proof.
  intros Hb Hxb.
  rewrite (nth_fmap_lt _ _ b []) by done. by rewrite length_imap.
Qed.
End ChannelFacts.

Section ForwardRows.
Context {T : Type} `{Scalar T}.

Lemma map_rows_tensor (f : list T -> list T) (t : Tensor3 T) B D L L' :
  has_shape3 t B D L ->
  (forall r, length r = L -> length (f r) = L') ->
  has_shape3 (mkT3 (B, D, L') (map_rows f (data3 t))) B D L' /\
  forall b d, b < B -> d < D ->
    row3 (mkT3 (B, D, L') (map_rows f (data3 t))) b d = f (row3 t b d).
Proof.
  intros Ht Hf. split; [by eapply has_shape3_map_rows|].
  intros b d Hb Hd. unfold row3; simpl.
  destruct (has_shape3_rows _ _ _ _ Ht b Hb) as [HD _].
  destruct Ht as (_ & Hlen & _).
  apply nth_map_rows; lia.
Qed.

Lemma slice_to_rows n (t : Tensor3 T) B D L :
  has_shape3 t B D L ->
  has_shape3 (slice_to n t) B D (n `min` L) /\
  forall b d, b < B -> d < D -> row3 (slice_to n t) b d = take n (row3 t b d).
Proof.
  intros Ht. unfold slice_to. rewrite (proj1 Ht).
  apply (map_rows_tensor _ _ _ _ L); [done|].
  intros r Hr. rewrite length_take. lia.
Qed.

Lemma slice_from_rows n (t : Tensor3 T) B D L :
  has_shape3 t B D L ->
  has_shape3 (slice_from n t) B D (L - n) /\
  forall b d, b < B -> d < D -> row3 (slice_from n t) b d = drop n (row3 t b d).
Proof.
  intros Ht. unfold slice_from. rewrite (proj1 Ht).
  apply (map_rows_tensor _ _ _ _ L); [done|].
  intros r Hr. rewrite length_drop. lia.
Qed.

Lemma F_silu3_rows (t : Tensor3 T) B D L :
  has_shape3 t B D L ->
  has_shape3 (F_silu3 t) B D L /\
  forall b d, b < B -> d < D -> row3 (F_silu3 t) b d = s_silu <$> row3 t b d.
Proof.
  intros Ht. unfold F_silu3. rewrite (proj1 Ht).
  apply (map_rows_tensor (fun r => s_silu <$> r) _ _ _ L); [done|].
  intros r Hr. by rewrite length_fmap.
Qed.

Lemma torch_cat_rows (h x : Tensor3 T) B D S L :
  has_shape3 h B D S -> has_shape3 x B D L ->
  has_shape3 (torch_cat h x) B D (S + L) /\
  forall b d, b < B -> d < D ->
    row3 (torch_cat h x) b d = row3 h b d ++ row3 x b d.
Proof.
  intros Hh Hx. unfold torch_cat. rewrite (proj1 Hh), (proj1 Hx).
  pose proof (has_shape3_rows _ _ _ _ Hh) as Rh.
  pose proof (has_shape3_rows _ _ _ _ Hx) as Rx.
  destruct Hh as (_ & Lh & _), Hx as (_ & Lx & _).
  assert (Hrow : forall b d, b < B -> d < D ->
    row3 (mkT3 (B, D, S + L) (zip_with (zip_with app) (data3 h) (data3 x))) b d
    = row3 h b d ++ row3 x b d).
  { intros b d Hb Hd. unfold row3; simpl.
    destruct (Rh b Hb) as [Dh _]. destruct (Rx b Hb) as [Dx _].
    rewrite (nth_zip_with_lt _ _ _ b [] []) by lia.
    by rewrite (nth_zip_with_lt _ _ _ d [] []) by lia. }
  split; [|done].
  apply has_shape3_intro; simpl; [done|rewrite length_zip_with; lia|].
  intros b Hb. destruct (Rh b Hb) as [Dh Rh']. destruct (Rx b Hb) as [Dx Rx'].
  split.
  - rewrite (nth_zip_with_lt _ _ _ b [] []) by lia. rewrite length_zip_with. lia.
  - intros d Hd. rewrite Hrow by done. rewrite length_app, Rh', Rx' by done. done.
Qed.

Lemma F_conv1d_rows (xc : Tensor3 T) (weight : Tensor2 T) bias B D L W :
  has_shape3 xc B D L -> has_shape2 weight D W -> 1 <= W -> 1 <= L ->
  exists c, F_conv1d_depthwise xc weight bias (Z.of_nat W - 1) = Ok c /\
    has_shape3 c B D (L + W - 1) /\
    forall b d, b < B -> d < D ->
      row3 c b d =
      conv1d_channel (nth d (data2 weight) []) (bias_at bias d) (W - 1) (row3 xc b d).
Proof.
  intros Hx Hw HW HL. unfold F_conv1d_depthwise.
  destruct (Z.ltb_spec (Z.of_nat W - 1) 0) as [?|_]; [lia|].
  replace (Z.to_nat (Z.of_nat W - 1)) with (W - 1) by lia.
  rewrite (proj1 Hx), (proj1 Hw).
  rewrite bool_decide_eq_false_2 by lia.
  eexists. split; [done|].
  pose proof (has_shape3_rows _ _ _ _ Hx) as Rx.
  pose proof (has_shape2_rows _ _ _ Hw) as Rw.
  destruct Hx as (_ & Lx & _), Hw as (_ & Lw & _).
  assert (Hrow : forall b d, b < B -> d < D ->
    row3 (mkT3 (B, D, L + 2 * (W - 1) + 1 - W)
      ((fun xb : list (list T) =>
          imap (fun d xs => conv1d_channel (nth d (data2 weight) []) (bias_at bias d)
                              (W - 1) xs) xb)
         <$> data3 xc)) b d
    = conv1d_channel (nth d (data2 weight) []) (bias_at bias d) (W - 1) (row3 xc b d)).
  { intros b d Hb Hd. unfold row3; simpl. destruct (Rx b Hb) as [Dx _].
    apply (conv_rows _ _ _ _ _ _ D); (done || lia). }
  split; [|done].
  replace (L + W - 1) with (L + 2 * (W - 1) + 1 - W) by lia.
  apply has_shape3_intro; simpl; [done|rewrite length_fmap; lia|].
  intros b Hb. destruct (Rx b Hb) as [Dx Rx']. split.
  - apply length_conv_rows; (done || lia).
  - intros d Hd. rewrite Hrow by done.
    rewrite conv1d_channel_length, Rx', Rw by done. lia.
Qed.

(** The reference forward, channel by channel, on an input whose time
    axis, the initial state included, is not empty. *)
Lemma causal_conv1d_ref_rows_from (x : Tensor3 T) (weight : Tensor2 T) bias hidden
    activation B D L W S :
  has_shape3 x B D L -> has_shape2 weight D W -> 1 <= W ->
  opt_shape3 hidden B D S ->
  1 <= match hidden with Some _ => S | None => 0 end + L ->
  activation ∈ [None; Some "silu"; Some "swish"] ->
  exists out, causal_conv1d_ref x weight bias hidden activation = Ok out /\
    has_shape3 out B D L /\
    forall b d, b < B -> d < D ->
      row3 out b d =
      ref_channel (nth d (data2 weight) []) bias d
        (hidden_row hidden b d) (row3 x b d) activation.
Proof.
  intros Hx Hw HW Hhid Hne Hact.
  unfold causal_conv1d_ref. rewrite (activation_in_valid _ Hact). simpl.
  set (xc := match hidden with Some h => torch_cat h x | None => x end).
  set (S' := match hidden with Some _ => S | None => 0 end) in *.
  assert (Hxc : has_shape3 xc B D (S' + L) /\
                forall b d, b < B -> d < D ->
                  row3 xc b d = hidden_row hidden b d ++ row3 x b d).
  { unfold xc, S'. destruct hidden as [h|]; simpl.
    - apply torch_cat_rows; [by apply Hhid|done].
    - split; [done|]. done. }
  destruct Hxc as [Hxc Rxc].
  destruct (F_conv1d_rows xc weight bias B D (S' + L) W Hxc Hw HW Hne)
    as (c & Hc & Sc & Rc).
  rewrite (proj1 Hw), (proj1 Hxc). simpl. rewrite Hc. simpl.
  destruct (slice_to_rows (S' + L) c _ _ _ Sc) as [S1 R1].
  replace ((S' + L) `min` (S' + L + W - 1)) with (S' + L) in S1 by lia.
  set (o2 := match hidden with
             | Some h => slice_from (shape3 h).2 (slice_to (S' + L) c)
             | None => slice_to (S' + L) c
             end).
  assert (Ho2 : has_shape3 o2 B D L /\
                forall b d, b < B -> d < D ->
                  row3 o2 b d = drop S' (row3 (slice_to (S' + L) c) b d)).
  { unfold o2, S' in *. destruct hidden as [h|]; simpl.
    - rewrite (proj1 (Hhid h eq_refl)). simpl.
      destruct (slice_from_rows S _ _ _ _ S1) as [S2 R2].
      replace (S + L - S) with L in S2 by lia. done.
    - split; [done|]. intros. by rewrite drop_0. }
  destruct Ho2 as [S2 R2]. fold o2.
  pose proof (has_shape3_rows _ _ _ _ Hx) as Rx.
  pose proof (has_shape2_rows _ _ _ Hw) as Rw.
  assert (Hlen_h : forall b d, b < B -> d < D -> length (hidden_row hidden b d) = S').
  { intros b d Hb Hd. unfold hidden_row, S'. destruct hidden as [h|]; [|done].
    by apply (has_shape3_rows _ _ _ _ (Hhid h eq_refl) b Hb). }
  assert (Hrow : forall b d, b < B -> d < D ->
    act_of activation <$> row3 o2 b d =
    ref_channel (nth d (data2 weight) []) bias d
      (hidden_row hidden b d) (row3 x b d) activation).
  { intros b d Hb Hd. unfold ref_channel.
    rewrite R2, R1, Rc, Rxc by done.
    rewrite Hlen_h, Rw by done. by rewrite (proj2 (Rx b Hb)) by done. }
  destruct activation as [s|].
  - eexists. split; [done|].
    destruct (F_silu3_rows o2 _ _ _ S2) as [S3 R3]. split; [done|].
    intros b d Hb Hd. rewrite R3, <- Hrow by done.
    apply list_fmap_ext. intros ? y _. symmetry. by apply act_of_Some.
  - eexists. split; [done|]. split; [done|].
    intros b d Hb Hd. rewrite <- Hrow by done. symmetry. by apply fmap_id_ext.
Qed.

(** The reference forward, channel by channel, on a signal with at least
    one timestep. *)
Lemma causal_conv1d_ref_rows (x : Tensor3 T) (weight : Tensor2 T) bias hidden
    activation B D L W S :
  has_shape3 x B D L -> has_shape2 weight D W -> 1 <= W -> 1 <= L ->
  opt_shape3 hidden B D S ->
  activation ∈ [None; Some "silu"; Some "swish"] ->
  exists out, causal_conv1d_ref x weight bias hidden activation = Ok out /\
    has_shape3 out B D L /\
    forall b d, b < B -> d < D ->
      row3 out b d =
      ref_channel (nth d (data2 weight) []) bias d
        (hidden_row hidden b d) (row3 x b d) activation.
Proof.
  intros Hx Hw HW HL Hhid Hact.
  apply (causal_conv1d_ref_rows_from _ _ _ _ _ B D L W S); try done.
  destruct hidden; lia.
Qed.
End ForwardRows.

Section ForwardFormula.
Context {T : Type} `{Scalar T}.

Lemma nth_drop_add {A} (l : list A) n i d : nth i (drop n l) d = nth (n + i) l d.
Proof. by rewrite !nth_lookup, lookup_drop. Qed.

Lemma nth_take_below {A} (l : list A) n i d : i < n -> nth i (take n l) d = nth i l d.
Proof. intros Hi. by rewrite !nth_lookup, lookup_take_lt. Qed.

(** Sample [t] of one channel of the reference forward. *)
Lemma ref_channel_nth (w : list T) bias d hs xs activation t :
  1 <= length w -> t < length xs ->
  nth t (ref_channel w bias d hs xs activation) s_zero =
  act_of activation
    (tap_acc (bias_at bias d) (length w) (fun k =>
       s_mul (nth k w s_zero)
         (zget (hs ++ xs)
            (Z.of_nat (length hs) + (Z.of_nat t - (Z.of_nat (length w) - 1) + Z.of_nat k))))).
Proof.
  intros Hw Ht. unfold ref_channel.
  assert (Hc : length (conv1d_channel w (bias_at bias d) (length w - 1) (hs ++ xs))
               = length hs + length xs + length w - 1).
  { rewrite conv1d_channel_length, length_app. lia. }
  rewrite (nth_fmap_lt _ _ t s_zero).
  2:{ rewrite length_drop, length_take, Hc. lia. }
  f_equal. rewrite nth_drop_add, nth_take_below by lia.
  rewrite conv1d_channel_nth by (rewrite length_app; lia).
  apply tap_acc_ext. intros k Hk. do 2 f_equal. lia.
Qed.
End ForwardFormula.

Section ForwardFormulaExact.
Context {T : Type} `{Scalar T} `{!ExactArith T}.

(** Sample [t] of one channel of the reference forward in exact
    arithmetic: the sum over the taps, then the bias. *)
Lemma ref_channel_nth_exact (w : list T) bias d hs xs activation t :
  1 <= length w -> t < length xs ->
  nth t (ref_channel w bias d hs xs activation) s_zero =
  act_of activation (add_bias bias d
    (tap_sum (length w) (fun k =>
       s_mul (nth k w s_zero)
         (zget (hs ++ xs)
            (Z.of_nat (length hs) + (Z.of_nat t - (Z.of_nat (length w) - 1) + Z.of_nat k)))))).
Proof.
  intros Hw Ht. rewrite ref_channel_nth by done. by rewrite tap_acc_exact.
Qed.

(** C1, as amended. In exact arithmetic, for a signal [x] of shape
    (B, D, L) with at least one channel and one timestep, a filter of shape
    (D, W) with at least one tap, an optional bias of shape (D,), an
    optional initial state of shape (B, D, S) (S = 0 without one) and a
    supported activation, [causal_conv1d_ref] returns a tensor of shape
    (B, D, L) with
    [out[b,d,t] = act (sum_{k<W} weight[d,k] * src[S + t - (W-1) + k] (+ bias[d]))]:
    [src] is the initial state, if present, followed by [x[b,d,:]], and
    reads 0 before its start; output [t] is aligned with sample [t] of the
    signal, which is position [S + t] of [src]. The bias is added after the
    sum; [act] is silu for "silu" and "swish" and the identity for None.
    (In floating point the convolution adds the taps to the bias one after
    the other, which can round differently from the sum followed by the
    bias.) *)
Theorem causal_conv1d_ref_formula (x : Tensor3 T) (weight : Tensor2 T)
    (bias : option (list T)) (hidden : option (Tensor3 T))
    (activation : option string) (B D L W S : nat) :
  has_shape3 x B D L -> has_shape2 weight D W -> 1 <= W -> 1 <= D -> 1 <= L ->
  has_len bias D -> opt_shape3 hidden B D S ->
  activation ∈ [None; Some "silu"; Some "swish"] ->
  exists out, causal_conv1d_ref x weight bias hidden activation = Ok out /\
    has_shape3 out B D L /\
    forall b d t, b < B -> d < D -> t < L ->
      get3 out b d t =
      act_of activation (add_bias bias d
        (tap_sum W (fun k =>
           s_mul (get2 weight d k)
             (src_at hidden x b d
                (Z.of_nat (hidden_width hidden)
                 + (Z.of_nat t - (Z.of_nat W - 1) + Z.of_nat k)))))).
Proof.
  intros Hx Hw HW HD HL Hbias Hhid Hact.
  destruct (causal_conv1d_ref_rows x weight bias hidden activation B D L W S)
    as (out & Hout & Sout & Rout); try done.
  exists out. split; [done|]. split; [done|].
  intros b d t Hb Hd Ht.
  pose proof (has_shape2_rows _ _ _ Hw d Hd) as Lw.
  pose proof (proj2 (has_shape3_rows _ _ _ _ Hx b Hb) d Hd) as Lx.
  change (get3 out b d t) with (nth t (row3 out b d) s_zero).
  rewrite Rout by done. rewrite ref_channel_nth_exact by lia.
  rewrite Lw. do 2 f_equal. apply tap_sum_ext. intros k Hk.
  unfold src_at, get2. rewrite src_hidden_row. do 3 f_equal.
  unfold hidden_row, hidden_width. destruct hidden as [h|]; [|done].
  destruct (Hhid h eq_refl) as (Sh & _).
  rewrite (proj2 (has_shape3_rows _ _ _ _ (Hhid h eq_refl) b Hb) d Hd).
  by rewrite Sh.
Qed.
End ForwardFormulaExact.

(** The integers are an exact arithmetic. *)
#[global] Instance Z_exact : ExactArith Z.
Proof. split; simpl; intros; lia. Qed.

(** [causal_conv1d_ref_formula] on the example tensors. *)
Lemma causal_conv1d_ref_formula_witness :
  exists out,
    causal_conv1d_ref ex_x ex_weight (Some ex_bias) (Some ex_hidden) (Some "silu")
    = Ok out /\
    has_shape3 out 1 2 4 /\
    forall b d t, b < 1 -> d < 2 -> t < 4 ->
      get3 out b d t =
      act_of (Some "silu") (add_bias (Some ex_bias) d
        (tap_sum 3 (fun k =>
           s_mul (get2 ex_weight d k)
             (src_at (Some ex_hidden) ex_x b d
                (Z.of_nat 2 + (Z.of_nat t - (Z.of_nat 3 - 1) + Z.of_nat k)))))).
Proof.
  apply (causal_conv1d_ref_formula ex_x ex_weight (Some ex_bias) (Some ex_hidden)
           (Some "silu") 1 2 4 3 2); shape_facts.
Defined.

(** C1, as stated, fails with an initial state: the first output of the
    first channel is [1*7 + 10*9 + 100*1 = 197], the three taps over the
    two state samples and the first signal sample, while the sum over
    [src[t - (W-1) + k]] at [t = 0] reads [src[-2], src[-1], src[0]], that
    is two zeros and the first state sample: [100*7 = 700]. *)
Lemma causal_conv1d_ref_unshifted_formula_fails :
  exists out,
    causal_conv1d_ref ex_x ex_weight None (Some ex_hidden) None = Ok out /\
    get3 out 0 0 0 = 197%Z /\
    act_of None (add_bias None 0
      (tap_sum 3 (fun k =>
         s_mul (get2 ex_weight 0 k)
           (src_at (Some ex_hidden) ex_x 0 0
              (Z.of_nat 0 - (Z.of_nat 3 - 1) + Z.of_nat k))))) = 700%Z /\
    get3 out 0 0 0 <>
    act_of None (add_bias None 0
      (tap_sum 3 (fun k =>
         s_mul (get2 ex_weight 0 k)
           (src_at (Some ex_hidden) ex_x 0 0
              (Z.of_nat 0 - (Z.of_nat 3 - 1) + Z.of_nat k))))).
Proof.
  eexists. split; [reflexivity|]. split; [reflexivity|]. split; [reflexivity|].
  vm_compute. discriminate.
Qed.

Section Chunks.
Context {T : Type} `{Scalar T}.

Lemma zget_take (l : list T) n (i : Z) :
  (i < Z.of_nat n)%Z -> zget (take n l) i = zget l i.
Proof.
  intros Hi. unfold zget. destruct (Z.ltb_spec i 0); [done|].
  apply nth_take_below. lia.
Qed.

Lemma zget_drop (l : list T) n (i : Z) :
  (0 <= i)%Z -> zget (drop n l) i = zget l (Z.of_nat n + i).
Proof.
  intros Hi. unfold zget.
  destruct (Z.ltb_spec i 0); [lia|]. destruct (Z.ltb_spec (Z.of_nat n + i) 0); [lia|].
  rewrite nth_drop_add. f_equal. lia.
Qed.

(** One channel: the outputs of the two chunks, the second one seeded
    with the tail of the first, make up the output of the whole signal. *)
Lemma ref_channel_chunks (w : list T) bias d xs activation p :
  1 <= length w -> length w - 1 <= p -> p <= length xs ->
  ref_channel w bias d [] (take p xs) activation ++
  ref_channel w bias d (drop (p - (length w - 1)) (take p xs)) (drop p xs) activation
  = ref_channel w bias d [] xs activation.
Proof.
  intros Hw Hp HL.
  set (hs := drop (p - (length w - 1)) (take p xs)).
  assert (Hhs : length hs = length w - 1).
  { unfold hs. rewrite length_drop, length_take. lia. }
  assert (Hcat : hs ++ drop p xs = drop (p - (length w - 1)) xs).
  { unfold hs. rewrite <- (take_drop p xs) at 3.
    rewrite drop_app_le by (rewrite length_take; lia). done. }
  apply (nth_ext _ _ s_zero s_zero).
  { rewrite length_app, !length_ref_channel, length_take, length_drop by done. lia. }
  intros t Ht.
  rewrite length_app, !length_ref_channel, length_take, length_drop in Ht by done.
  rewrite (ref_channel_nth w bias d [] xs) by (done || lia).
  destruct (decide (t < p)) as [Hlt|Hge].
  - rewrite app_nth1 by (rewrite length_ref_channel, length_take by done; lia).
    rewrite ref_channel_nth by (rewrite ?length_take; lia).
    f_equal. apply tap_acc_ext. intros k Hk. f_equal. simpl.
    apply zget_take. lia.
  - rewrite app_nth2 by (rewrite length_ref_channel, length_take by done; lia).
    rewrite length_ref_channel, length_take by done.
    replace (t - p `min` length xs) with (t - p) by lia.
    rewrite ref_channel_nth by (rewrite ?length_drop; lia).
    f_equal. apply tap_acc_ext. intros k Hk. f_equal.
    rewrite Hcat, Hhs. simpl. rewrite zget_drop by lia. f_equal. lia.
Qed.

(** One channel: the first [n] outputs read only the first [n] samples. *)
Lemma ref_channel_causal (w : list T) bias d hs xs xs' activation n :
  1 <= length w -> length xs = length xs' ->
  take n xs = take n xs' ->
  take n (ref_channel w bias d hs xs activation) =
  take n (ref_channel w bias d hs xs' activation).
Proof.
  intros Hw Hlen Heq.
  apply (nth_ext _ _ s_zero s_zero).
  { rewrite !length_take, !length_ref_channel by done. lia. }
  intros t Ht. rewrite length_take, length_ref_channel in Ht by done.
  rewrite !nth_take_below by lia.
  rewrite !ref_channel_nth by lia.
  f_equal. apply tap_acc_ext. intros k Hk. f_equal.
  set (pos := (Z.of_nat (length hs) + _)%Z).
  destruct (Z.lt_ge_cases pos (Z.of_nat (length hs))) as [Hin|Hout].
  - by rewrite !zget_app_l.
  - rewrite !zget_app_r by done.
    rewrite <- (zget_take xs n), <- (zget_take xs' n) by (unfold pos; lia).
    by rewrite Heq.
Qed.
End Chunks.

Section ForwardTheorems.
Context {T : Type} `{Scalar T}.

(** C2, as amended. State continuity. Split a signal of length L, with at
    least one channel, at a position p with W-1 <= p <= L that leaves
    neither call with an empty input: 1 <= p, and p < L or 2 <= W. The
    reference forward of the first chunk alone, followed along the time
    axis by the reference forward of the second chunk with the last W-1
    samples of the first chunk as initial state, is exactly the reference
    forward of the whole signal without initial state (same weight, bias
    and activation in the three calls). *)
Theorem state_continuity (x : Tensor3 T) (weight : Tensor2 T)
    (bias : option (list T)) (activation : option string) (B D L W p : nat) :
  has_shape3 x B D L -> has_shape2 weight D W -> 1 <= W -> 1 <= D -> has_len bias D ->
  activation ∈ [None; Some "silu"; Some "swish"] ->
  W - 1 <= p -> p <= L -> 1 <= p -> p < L \/ 2 <= W ->
  let chunk1 := slice_to p x in
  let chunk2 := slice_from p x in
  let hidden := slice_from (p - (W - 1)) chunk1 in
  exists out1 out2 out,
    causal_conv1d_ref chunk1 weight bias None activation = Ok out1 /\
    causal_conv1d_ref chunk2 weight bias (Some hidden) activation = Ok out2 /\
    causal_conv1d_ref x weight bias None activation = Ok out /\
    torch_cat out1 out2 = out.
Proof.
  intros Hx Hw HW HD Hbias Hact Hp HpL Hp1 Hne chunk1 chunk2 hidden.
  destruct (slice_to_rows p x B D L Hx) as [S1 R1]. fold chunk1 in S1, R1.
  replace (p `min` L) with p in S1 by lia.
  destruct (slice_from_rows p x B D L Hx) as [S2 R2]. fold chunk2 in S2, R2.
  destruct (slice_from_rows (p - (W - 1)) chunk1 B D p S1) as [Sh Rh].
  fold hidden in Sh, Rh. replace (p - (p - (W - 1))) with (W - 1) in Sh by lia.
  destruct (causal_conv1d_ref_rows chunk1 weight bias None activation B D p W 0)
    as (out1 & E1 & So1 & Ro1); try done.
  destruct (causal_conv1d_ref_rows_from chunk2 weight bias (Some hidden) activation
              B D (L - p) W (W - 1)) as (out2 & E2 & So2 & Ro2); try done.
  { intros h [= <-]. done. }
  { lia. }
  destruct (causal_conv1d_ref_rows x weight bias None activation B D L W 0)
    as (out & E & So & Ro); try done.
  { lia. }
  exists out1, out2, out. repeat (split; [done|]).
  destruct (torch_cat_rows out1 out2 B D p (L - p) So1 So2) as [Sc Rc].
  replace (p + (L - p)) with L in Sc by lia.
  apply (tensor3_ext _ _ B D L Sc So). intros b d Hb Hd.
  rewrite Rc, Ro1, Ro2, Ro by done. simpl.
  rewrite Rh, R1, R2 by done.
  pose proof (has_shape2_rows _ _ _ Hw d Hd) as Lw.
  pose proof (proj2 (has_shape3_rows _ _ _ _ Hx b Hb) d Hd) as Lx.
  rewrite <- Lw. apply ref_channel_chunks; lia.
Qed.

(** C4. Causality. Two signals of one shape that agree on the timesteps
    [0 .. t] have reference forward outputs that agree on the timesteps
    [0 .. t], for the same weight, bias, initial state and activation. *)
Theorem causality (x x' : Tensor3 T) (weight : Tensor2 T)
    (bias : option (list T)) (hidden : option (Tensor3 T))
    (activation : option string) (B D L W S t : nat) :
  has_shape3 x B D L -> has_shape3 x' B D L ->
  has_shape2 weight D W -> 1 <= W -> has_len bias D -> opt_shape3 hidden B D S ->
  activation ∈ [None; Some "silu"; Some "swish"] ->
  t < L ->
  slice_to (t + 1) x = slice_to (t + 1) x' ->
  exists out out',
    causal_conv1d_ref x weight bias hidden activation = Ok out /\
    causal_conv1d_ref x' weight bias hidden activation = Ok out' /\
    slice_to (t + 1) out = slice_to (t + 1) out'.
Proof.
  intros Hx Hx' Hw HW Hbias Hhid Hact Ht Heq.
  assert (HL : 1 <= L) by lia.
  destruct (causal_conv1d_ref_rows x weight bias hidden activation B D L W S)
    as (out & E & So & Ro); try done.
  destruct (causal_conv1d_ref_rows x' weight bias hidden activation B D L W S)
    as (out' & E' & So' & Ro'); try done.
  exists out, out'. repeat (split; [done|]).
  destruct (slice_to_rows (t + 1) out B D L So) as [S1 R1].
  destruct (slice_to_rows (t + 1) out' B D L So') as [S1' R1'].
  apply (tensor3_ext _ _ _ _ _ S1 S1'). intros b d Hb Hd.
  rewrite R1, R1', Ro, Ro' by done.
  pose proof (has_shape2_rows _ _ _ Hw d Hd) as Lw.
  apply ref_channel_causal.
  - lia.
  - rewrite (proj2 (has_shape3_rows _ _ _ _ Hx b Hb) d Hd).
    by rewrite (proj2 (has_shape3_rows _ _ _ _ Hx' b Hb) d Hd).
  - rewrite <- (proj2 (slice_to_rows (t + 1) x B D L Hx) b d Hb Hd).
    rewrite <- (proj2 (slice_to_rows (t + 1) x' B D L Hx') b d Hb Hd).
    by rewrite Heq.
Qed.
End ForwardTheorems.

(** [state_continuity] on the example tensors. *)
Lemma state_continuity_witness :
  exists out1 out2 out,
    causal_conv1d_ref (slice_to 2 ex_x) ex_weight (Some ex_bias) None None = Ok out1 /\
    causal_conv1d_ref (slice_from 2 ex_x) ex_weight (Some ex_bias)
      (Some (slice_from (2 - (3 - 1)) (slice_to 2 ex_x))) None = Ok out2 /\
    causal_conv1d_ref ex_x ex_weight (Some ex_bias) None None = Ok out /\
    torch_cat out1 out2 = out.
Proof.
  apply (state_continuity ex_x ex_weight (Some ex_bias) None 1 2 4 3 2); shape_facts;
    lia.
Defined.

(** C2, as stated, fails for a filter of one tap split at position 0: the
    first chunk has no timestep, and the convolution rejects a signal whose
    time axis is empty, so the run on the first chunk raises where the run
    on the whole signal returns. *)
Lemma state_continuity_fails_on_empty_chunk :
  1 - 1 <= 0 /\
  causal_conv1d_ref (slice_to 0 ex_x) ex_weight1 None None None = Raise RuntimeError /\
  causal_conv1d_ref ex_x ex_weight1 None None None
  = Ok (mkT3 (1, 2, 4) [[[3; 6; 9; 12]; [25; 30; 35; 40]]]%Z) /\
  ~ exists out1 out2 out,
      causal_conv1d_ref (slice_to 0 ex_x) ex_weight1 None None None = Ok out1 /\
      causal_conv1d_ref (slice_from 0 ex_x) ex_weight1 None
        (Some (slice_from (0 - (1 - 1)) (slice_to 0 ex_x))) None = Ok out2 /\
      causal_conv1d_ref ex_x ex_weight1 None None None = Ok out /\
      torch_cat out1 out2 = out.
Proof.
  split; [lia|]. split; [reflexivity|]. split; [reflexivity|].
  intros (out1 & out2 & out & E1 & _). discriminate E1.
Qed.

(** [causality] on the example tensors. *)
Lemma causality_witness :
  exists out out',
    causal_conv1d_ref ex_x ex_weight None (Some ex_hidden) None = Ok out /\
    causal_conv1d_ref ex_x' ex_weight None (Some ex_hidden) None = Ok out' /\
    slice_to (2 + 1) out = slice_to (2 + 1) out'.
Proof.
  apply (causality ex_x ex_x' ex_weight None (Some ex_hidden) None 1 2 4 3 2 2);
    shape_facts.
Defined.

Section Update.
Context {T : Type} `{Scalar T}.

Lemma roll_vec_left (l : list T) :
  1 <= length l -> roll_vec (-1) l = drop 1 l ++ take 1 l.
Proof.
  intros Hl. unfold roll_vec. simpl (- -1)%Z.
  destruct (decide (length l = 1)) as [H1|Hn].
  - rewrite H1. simpl. destruct l as [|a [|? ?]]; simpl in *; (done || lia).
  - rewrite Z.mod_small by lia. done.
Qed.

(** Rolling a window left by one and overwriting its last slot drops
    the oldest sample and appends the new one. *)
Lemma roll_setitem (s : list T) (v : T) W :
  length s = W -> 1 <= W ->
  <[W - 1 := v]> (roll_vec (-1) s) = drop 1 s ++ [v].
Proof.
  intros Hs HW. rewrite roll_vec_left by lia.
  destruct s as [|a s']; simpl in *; [lia|]. rewrite drop_0.
  rewrite insert_app_r_alt by lia.
  replace (W - 1 - length s') with 0 by lia. done.
Qed.

(** The reference update, channel by channel. *)
Lemma causal_conv1d_update_ref_rows (x : Tensor2 T) (conv_state : Tensor3 T)
    (weight : Tensor2 T) bias activation B D W :
  has_shape2 x B D -> has_shape3 conv_state B D W -> has_shape2 weight D W ->
  1 <= W -> has_len bias D ->
  activation ∈ [None; Some "silu"; Some "swish"] ->
  exists out new_state,
    causal_conv1d_update_ref x conv_state weight bias activation = (Ok out, new_state) /\
    has_shape2 out B D /\ has_shape3 new_state B D W /\
    forall b d, b < B -> d < D ->
      row3 new_state b d = drop 1 (row3 conv_state b d) ++ [get2 x b d] /\
      get2 out b d =
      act_of activation (add_bias bias d
        (vsum (zip_with s_mul (row3 new_state b d) (nth d (data2 weight) [])))).
Proof.
  intros Hx Hs Hw HW Hbias Hact.
  unfold causal_conv1d_update_ref. rewrite (activation_in_valid _ Hact). simpl.
  rewrite (proj1 Hx), (proj1 Hw). simpl.
  rewrite (bool_decide_eq_true_2 _ (proj1 Hs)). simpl.
  rewrite bool_decide_eq_true_2 by done. simpl.
  unfold setitem_last, torch_roll. simpl. rewrite (proj1 Hs).
  rewrite bool_decide_eq_false_2 by lia.
  pose proof (has_shape3_rows _ _ _ _ Hs) as Rs.
  pose proof (has_shape2_rows _ _ _ Hx) as Rx.
  pose proof (has_shape2_rows _ _ _ Hw) as Rw.
  set (ns := mkT3 (B, D, W)
    (zip_with (zip_with (fun (r : list T) v => <[W - 1 := v]> r))
       (map_rows (roll_vec (-1)) (data3 conv_state)) (data2 x))).
  assert (Lns : length (data3 ns) = B).
  { simpl. rewrite length_zip_with, length_map_rows.
    destruct Hs as (_ & -> & _), Hx as (_ & -> & _). lia. }
  assert (Dns : forall b, b < B -> length (nth b (data3 ns) []) = D).
  { intros b Hb. simpl. destruct (Rs b Hb) as [HD _].
    destruct Hs as (_ & Ls & _), Hx as (_ & Lx & _).
    rewrite (nth_zip_with_lt _ _ _ b [] []) by (rewrite ?length_map_rows; lia).
    rewrite length_zip_with, length_nth_map_rows, Rx by done. lia. }
  assert (Rns : forall b d, b < B -> d < D ->
            row3 ns b d = drop 1 (row3 conv_state b d) ++ [get2 x b d]).
  { intros b d Hb Hd. unfold row3 at 1. simpl. destruct (Rs b Hb) as [HD HL].
    destruct Hs as (_ & Ls & _), Hx as (_ & Lx & _).
    rewrite (nth_zip_with_lt _ _ _ b [] []) by (rewrite ?length_map_rows; lia).
    rewrite (nth_zip_with_lt _ _ _ d [] s_zero)
      by (rewrite ?length_nth_map_rows, ?Rx; lia).
    rewrite nth_map_rows by lia.
    apply roll_setitem; [by apply HL|done]. }
  assert (Sns : has_shape3 ns B D W).
  { apply has_shape3_intro; [done|done|]. intros b Hb. split; [by apply Dns|].
    intros d Hd. rewrite Rns by done. destruct (Rs b Hb) as [_ HL].
    rewrite length_app, length_drop, HL by done. simpl. lia. }
  set (o1 := torch_sum_last (mul_bcast ns weight)).
  set (o2 := match bias with
             | Some bv =>
                 mkT2 (shape2 o1) ((fun ob : list T => zip_with s_add ob bv) <$> data2 o1)
             | None => o1
             end).
  set (o3 := match activation with None => o2 | Some _ => F_silu2 o2 end).
  assert (E2 : match bias with Some bv => iadd_bcast o1 bv | None => Ok o1 end = Ok o2).
  { unfold o2. destruct bias as [bv|]; [|done].
    unfold iadd_bcast. change (shape2 o1) with (B, D). cbv beta iota.
    by rewrite (bool_decide_eq_true_2 (length bv = D)) by (by apply Hbias). }
  exists o3, ns. split; [by rewrite E2|]. clearbody ns.
  assert (So1 : shape2 o1 = (B, D) /\ length (data2 o1) = B /\
            (forall b, b < B -> length (nth b (data2 o1) []) = D) /\
            forall b d, b < B -> d < D ->
              get2 o1 b d = vsum (zip_with s_mul (row3 ns b d) (nth d (data2 weight) []))).
  { unfold o1, torch_sum_last, mul_bcast. simpl. rewrite (proj1 Sns). simpl.
    destruct Hw as (_ & Lw & _).
    split; [done|]. split; [by rewrite length_map_rows, length_fmap|].
    assert (Hb' : forall b, b < B ->
              nth b ((fun sb : list (list T) => zip_with (zip_with s_mul) sb (data2 weight))
                       <$> data3 ns) []
              = zip_with (zip_with s_mul) (nth b (data3 ns) []) (data2 weight)).
    { intros b Hb. by rewrite (nth_fmap_lt _ _ b []) by lia. }
    split.
    - intros b Hb. rewrite length_nth_map_rows, Hb' by done.
      rewrite length_zip_with, Dns by done. lia.
    - intros b d Hb Hd. unfold get2. simpl.
      rewrite nth_map_rows; [|rewrite length_fmap; lia|].
      2:{ rewrite Hb', length_zip_with, Dns by done. lia. }
      rewrite Hb' by done.
      by rewrite (nth_zip_with_lt _ _ _ d [] []) by (rewrite ?Dns; lia). }
  destruct So1 as (Sh1 & L1 & D1 & G1).
  assert (So2 : shape2 o2 = (B, D) /\ length (data2 o2) = B /\
            (forall b, b < B -> length (nth b (data2 o2) []) = D) /\
            forall b d, b < B -> d < D ->
              get2 o2 b d = add_bias bias d (get2 o1 b d)).
  { unfold o2. destruct bias as [bv|]; [|done].
    specialize (Hbias bv eq_refl). simpl.
    split; [done|]. split; [by rewrite length_fmap|]. split.
    - intros b Hb. rewrite (nth_fmap_lt _ _ b []) by lia.
      rewrite length_zip_with, D1 by done. lia.
    - intros b d Hb Hd. unfold get2. simpl.
      rewrite (nth_fmap_lt _ _ b []) by lia.
      by rewrite (nth_zip_with_lt _ _ _ d s_zero s_zero) by (rewrite ?D1; lia). }
  destruct So2 as (Sh2 & L2 & D2 & G2).
  assert (So3 : shape2 o3 = (B, D) /\ length (data2 o3) = B /\
            (forall b, b < B -> length (nth b (data2 o3) []) = D) /\
            forall b d, b < B -> d < D ->
              get2 o3 b d = act_of activation (get2 o2 b d)).
  { unfold o3. destruct activation as [s|]; [|done].
    unfold F_silu2. simpl.
    split; [done|]. split; [by rewrite length_fmap|]. split.
    - intros b Hb. rewrite (nth_fmap_lt _ _ b []) by lia.
      rewrite length_fmap. by apply D2.
    - intros b d Hb Hd. unfold get2. simpl.
      rewrite (nth_fmap_lt _ _ b []) by lia.
      rewrite (nth_fmap_lt _ _ d s_zero) by (rewrite D2; lia).
      symmetry. by apply act_of_Some. }
  destruct So3 as (Sh3 & L3 & D3 & G3).
  split; [by apply has_shape2_intro|]. split; [done|].
  intros b d Hb Hd. split; [by apply Rns|].
  by rewrite G3, G2, G1.
Qed.
End Update.

Section Windows.
Context {T : Type} `{Scalar T}.


Lemma nth_zero_padded (xs : list T) W j :
  nth j (replicate W s_zero ++ xs) s_zero = zget xs (Z.of_nat j - Z.of_nat W).
Proof.
  rewrite <- zget_nat, <- (zget_padded xs W 0). simpl. by rewrite app_nil_r.
Qed.

(** The window of the last [W] samples moves on by one. *)
Lemma window_shift (xs : list T) W t :
  t < length xs -> 1 <= W ->
  drop 1 (take W (drop t (replicate W s_zero ++ xs))) ++ [nth t xs s_zero]
  = take W (drop (S t) (replicate W s_zero ++ xs)).
Proof.
  intros Ht HW. apply (nth_ext _ _ s_zero s_zero).
  { rewrite length_app, length_drop, !length_take, !length_drop, length_app,
      length_replicate. simpl. lia. }
  intros i Hi.
  rewrite length_app, length_drop, !length_take, !length_drop, length_app,
    length_replicate in Hi. simpl in Hi.
  assert (HiW : i < W) by lia.
  rewrite (nth_take_drop _ (S t)) by done.
  destruct (decide (i < W - 1)) as [Hlt|Hge].
  - rewrite app_nth1.
    2:{ rewrite length_drop, !length_take, !length_drop, length_app, length_replicate. lia. }
    rewrite nth_drop_add, nth_take_drop by lia. f_equal. lia.
  - rewrite app_nth2.
    2:{ rewrite length_drop, !length_take, !length_drop, length_app, length_replicate. lia. }
    rewrite length_drop, !length_take, !length_drop, length_app, length_replicate.
    replace (i - (W `min` (W + length xs - t) - 1)) with 0 by lia. simpl.
    rewrite nth_zero_padded, <- zget_nat. f_equal. lia.
Qed.

Lemma window_state_rows (x : Tensor3 T) B D L W t :
  has_shape3 x B D L -> t <= L ->
  has_shape3 (window_state x W t) B D W /\
  forall b d, b < B -> d < D ->
    row3 (window_state x W t) b d
    = take W (drop t (replicate W s_zero ++ row3 x b d)).
Proof.
  intros Hx Ht. unfold window_state. rewrite (proj1 Hx).
  apply (map_rows_tensor
           (fun xs => take W (drop t (replicate W s_zero ++ xs))) _ _ _ L); [done|].
  intros r Hr. rewrite length_take, length_drop, length_app, length_replicate. lia.
Qed.

Lemma window_state_0 (x : Tensor3 T) B D L W :
  has_shape3 x B D L -> window_state x W 0 = zeros3 B D W.
Proof.
  intros Hx. destruct (window_state_rows x B D L W 0 Hx) as [Sw Rw]; [lia|].
  assert (Rz : forall b d, b < B -> d < D ->
            row3 (zeros3 B D W) b d = replicate W s_zero).
  { intros b d Hb Hd. unfold row3, zeros3. simpl.
    rewrite !nth_lookup, !lookup_replicate_2 by done. simpl.
    by rewrite lookup_replicate_2. }
  apply (tensor3_ext _ _ B D W Sw).
  - apply has_shape3_intro; simpl; [done|by rewrite length_replicate|].
    intros b Hb. split.
    + rewrite nth_lookup, lookup_replicate_2 by done. simpl. by rewrite length_replicate.
    + intros d Hd. by rewrite Rz, length_replicate.
  - intros b d Hb Hd. rewrite Rw, Rz by done. rewrite drop_0.
    by rewrite take_app_length' by (by rewrite length_replicate).
Qed.

Lemma select_last_rows (x : Tensor3 T) B D L t :
  has_shape3 x B D L ->
  has_shape2 (select_last t x) B D /\
  forall b d, b < B -> d < D -> get2 (select_last t x) b d = get3 x b d t.
Proof.
  intros Hx. pose proof (has_shape3_rows _ _ _ _ Hx) as Rx.
  unfold select_last. rewrite (proj1 Hx).
  destruct Hx as (_ & Lx & _).
  assert (Hg : forall b d, b < B -> d < D ->
    get2 (mkT2 (B, D) (map_rows (fun r => nth t r s_zero) (data3 x))) b d = get3 x b d t).
  { intros b d Hb Hd. unfold get2, get3. simpl. destruct (Rx b Hb) as [HD _].
    by rewrite nth_map_rows by lia. }
  split; [|done].
  apply has_shape2_intro; simpl; [done|by rewrite length_map_rows|].
  intros b Hb. rewrite length_nth_map_rows. by apply Rx.
Qed.
End Windows.


Section Streaming.
Context {T : Type} `{Scalar T} `{!ExactArith T}.

(** One call of the update engine on the window of the last [W] samples
    before time [t] returns sample [t] of the forward output. *)
Lemma update_ref_on_window (x : Tensor3 T) (weight : Tensor2 T) bias activation
    (out : Tensor3 T) B D L W t :
  has_shape3 x B D L -> has_shape2 weight D W -> 1 <= W -> has_len bias D ->
  activation ∈ [None; Some "silu"; Some "swish"] ->
  causal_conv1d_ref x weight bias None activation = Ok out ->
  t < L ->
  causal_conv1d_update_ref (select_last t x) (window_state x W t) weight bias activation
  = (Ok (select_last t out), window_state x W (S t)).
Proof.
  intros Hx Hw HW Hbias Hact Hout Ht.
  assert (HL : 1 <= L) by lia.
  destruct (causal_conv1d_ref_rows x weight bias None activation B D L W 0)
    as (out' & E & So & Ro); try done.
  rewrite Hout in E. injection E as <-.
  destruct (select_last_rows x B D L t Hx) as [Sx Gx].
  destruct (select_last_rows out B D L t So) as [Sso Gso].
  destruct (window_state_rows x B D L W t Hx) as [Sw Rw]; [lia|].
  destruct (window_state_rows x B D L W (S t) Hx) as [Sw' Rw']; [lia|].
  destruct (causal_conv1d_update_ref_rows (select_last t x) (window_state x W t)
              weight bias activation B D W) as (o & ns & Eu & Su & Sn & Ru); try done.
  rewrite Eu.
  assert (Hns : forall b d, b < B -> d < D ->
            row3 ns b d = take W (drop (S t) (replicate W s_zero ++ row3 x b d))).
  { intros b d Hb Hd. destruct (Ru b d Hb Hd) as [-> _].
    rewrite Rw, Gx by done. apply window_shift; [|done].
    by rewrite (proj2 (has_shape3_rows _ _ _ _ Hx b Hb) d Hd). }
  f_equal.
  - f_equal. apply (tensor2_ext _ _ B D Su Sso). intros b d Hb Hd.
    destruct (Ru b d Hb Hd) as [_ ->]. rewrite Gso by done.
    pose proof (has_shape2_rows _ _ _ Hw d Hd) as Lw.
    pose proof (proj2 (has_shape3_rows _ _ _ _ Hx b Hb) d Hd) as Lx.
    change (get3 out b d t) with (nth t (row3 out b d) s_zero).
    rewrite Ro, ref_channel_nth_exact by lia. do 2 f_equal.
    rewrite (zip_with_seq _ _ _ W s_zero s_zero);
      [|by apply (has_shape3_rows _ _ _ _ Sn b Hb)|done].
    rewrite Lw. apply tap_sum_ext. intros k Hk.
    rewrite s_mul_comm. f_equal. rewrite Hns by done.
    rewrite nth_take_drop, nth_zero_padded by done. simpl. f_equal. lia.
  - apply (tensor3_ext _ _ B D W Sn Sw'). intros b d Hb Hd.
    by rewrite Hns, Rw'.
Qed.

Lemma stream_update_ref_from (x : Tensor3 T) (weight : Tensor2 T) bias activation
    (out : Tensor3 T) B D L W n :
  has_shape3 x B D L -> has_shape2 weight D W -> 1 <= W -> has_len bias D ->
  activation ∈ [None; Some "silu"; Some "swish"] ->
  causal_conv1d_ref x weight bias None activation = Ok out ->
  forall t, t + n <= L ->
  stream_update_ref ((fun i => select_last i x) <$> seq t n)
    (window_state x W t) weight bias activation
  = ((fun i => Ok (select_last i out)) <$> seq t n, window_state x W (t + n)).
Proof.
  intros Hx Hw HW Hbias Hact Hout.
  induction n as [|n IH]; intros t Ht; simpl.
  - by rewrite Nat.add_0_r.
  - rewrite (update_ref_on_window x weight bias activation out B D L W t) by (done || lia).
    rewrite IH by lia. by replace (S t + n) with (t + S n) by lia.
Qed.

(** C3, as amended. Streaming equivalence, in exact arithmetic. Feeding
    the timesteps of a signal of shape (B, D, L), with at least one channel
    and one timestep, one at a time through [causal_conv1d_update_ref],
    from a state buffer of shape (B, D, W) filled with zeros, returns at
    call [t] the timestep [t] of the output of [causal_conv1d_ref] on the
    whole signal without initial state, for every bias and activation
    flag. The scalars are an exact arithmetic: the update multiplies state
    by weight, sums the taps and adds the bias to the sum, the convolution
    multiplies weight by sample and adds the taps to the bias. *)
Theorem streaming_equivalence (x : Tensor3 T) (weight : Tensor2 T)
    (bias : option (list T)) (activation : option string) (B D L W : nat) :
  has_shape3 x B D L -> has_shape2 weight D W -> 1 <= W -> 1 <= D -> 1 <= L ->
  has_len bias D ->
  activation ∈ [None; Some "silu"; Some "swish"] ->
  exists out,
    causal_conv1d_ref x weight bias None activation = Ok out /\
    (stream_update_ref (timesteps x) (zeros3 B D W) weight bias activation).1
    = (fun t => Ok (select_last t out)) <$> seq 0 L.
Proof.
  intros Hx Hw HW HD HL Hbias Hact.
  destruct (causal_conv1d_ref_rows x weight bias None activation B D L W 0)
    as (out & E & _ & _); try done.
  exists out. split; [done|].
  unfold timesteps. rewrite (proj1 Hx). simpl.
  rewrite <- (window_state_0 x B D L W Hx).
  by rewrite (stream_update_ref_from x weight bias activation out B D L W L).
Qed.
End Streaming.

(** [streaming_equivalence] on the example tensors. *)
Lemma streaming_equivalence_witness :
  exists out,
    causal_conv1d_ref ex_x ex_weight (Some ex_bias) None (Some "swish") = Ok out /\
    (stream_update_ref (timesteps ex_x) (zeros3 1 2 3) ex_weight (Some ex_bias)
       (Some "swish")).1
    = (fun t => Ok (select_last t out)) <$> seq 0 4.
Proof.
  apply (streaming_equivalence ex_x ex_weight (Some ex_bias) (Some "swish")
           1 2 4 3); shape_facts.
Defined.

(** C3, as stated, fails in floating point. On the binary64 signal
    [2^53, 1] of one channel, with the filter [1, 1] and the bias [-2^53],
    the convolution computes the second output as [(-2^53 + 2^53) + 1 = 1],
    while the update engine sums the taps first, [2^53 + 1], which rounds
    to [2^53], and returns [2^53 - 2^53 = 0]. *)
Lemma streaming_differs_in_floating_point :
  causal_conv1d_ref fl_x fl_weight (Some fl_bias) None None
  = Ok (mkT3 (1, 1, 2) [[[0; 1]]]%float) /\
  (stream_update_ref (timesteps fl_x) (zeros3 1 1 2) fl_weight (Some fl_bias) None).1
  = [Ok (mkT2 (1, 1) [[0]]%float); Ok (mkT2 (1, 1) [[0]]%float)] /\
  select_last 1 (mkT3 (1, 1, 2) [[[0; 1]]]%float) = mkT2 (1, 1) [[1]]%float /\
  ~ exists out,
      causal_conv1d_ref fl_x fl_weight (Some fl_bias) None None = Ok out /\
      (stream_update_ref (timesteps fl_x) (zeros3 1 1 2) fl_weight (Some fl_bias)
         None).1
      = (fun t => Ok (select_last t out)) <$> seq 0 2.
Proof.
  assert (E : causal_conv1d_ref fl_x fl_weight (Some fl_bias) None None
              = Ok (mkT3 (1, 1, 2) [[[0; 1]]]%float)) by (vm_compute; reflexivity).
  assert (Es : (stream_update_ref (timesteps fl_x) (zeros3 1 1 2) fl_weight
                  (Some fl_bias) None).1
               = [Ok (mkT2 (1, 1) [[0]]%float); Ok (mkT2 (1, 1) [[0]]%float)])
    by (vm_compute; reflexivity).
  split; [done|]. split; [done|]. split; [reflexivity|].
  intros (out & Eo & Hs). rewrite E in Eo.
  pose proof (f_equal (fun r => match r with Ok a => a | Raise _ => fl_x end) Eo) as Ho.
  simpl in Ho. subst out. rewrite Es in Hs.
  apply (f_equal (fun l : list (result (Tensor2 float)) =>
                    match l !! 1 with
                    | Some (Ok t) => PrimFloat.eqb (get2 t 0 0) 0
                    | _ => true
                    end)) in Hs.
  vm_compute in Hs. discriminate Hs.
Qed.

Section Fusion.
Context {T : Type} `{Scalar T}.

(** On tensors of one dtype the engines apply silu last: the fused call is
    the call without activation followed by silu. *)
Lemma fusion_one_dtype (s : string) :
  s ∈ ["silu"; "swish"]%string ->
  (forall (x : Tensor3 T) weight bias hidden,
     F_silu3 <$> causal_conv1d_ref x weight bias hidden None
     = causal_conv1d_ref x weight bias hidden (Some s)) /\
  (forall (x : Tensor2 T) conv_state weight bias,
     let r := causal_conv1d_update_ref x conv_state weight bias None in
     (F_silu2 <$> r.1, r.2)
     = causal_conv1d_update_ref x conv_state weight bias (Some s)).
Proof.
  intros Hs.
  assert (Hv : activation_in (Some s) [None; Some "silu"; Some "swish"] = true).
  { apply activation_in_valid.
    rewrite !elem_of_cons, elem_of_nil in Hs. rewrite !elem_of_cons.
    destruct Hs as [->|[->|[]]]; auto. }
  split.
  - intros x weight bias hidden. unfold causal_conv1d_ref. rewrite Hv.
    change (activation_in None [None; Some "silu"; Some "swish"]) with true.
    simpl. destruct (shape2 weight) as [dim width].
    by destruct (F_conv1d_depthwise _ weight bias _).
  - intros x conv_state weight bias. unfold causal_conv1d_update_ref. rewrite Hv.
    change (activation_in None [None; Some "silu"; Some "swish"]) with true.
    simpl. destruct (shape2 x) as [batch dim].
    destruct (bool_decide _); [|done]. simpl.
    destruct (bool_decide _); [|done]. simpl.
    destruct (setitem_last _ x); [|done].
    by destruct (match bias with Some _ => _ | None => _ end).
Qed.

Lemma F_silu3_cast3 (cast : T -> T) (t : Tensor3 T) :
  (forall y, cast (s_silu y) = s_silu (cast y)) ->
  F_silu3 (cast3 cast t) = cast3 cast (F_silu3 t).
Proof.
  intros Hc. unfold F_silu3, cast3, map_rows. simpl. f_equal.
  rewrite <- !list_fmap_compose. apply list_fmap_ext. intros _ xb _. simpl.
  rewrite <- !list_fmap_compose. apply list_fmap_ext. intros _ r _. simpl.
  rewrite <- !list_fmap_compose. apply list_fmap_ext. intros _ y _. simpl.
  symmetry. apply Hc.
Qed.

Lemma F_silu2_cast2 (cast : T -> T) (t : Tensor2 T) :
  (forall y, cast (s_silu y) = s_silu (cast y)) ->
  F_silu2 (cast2 cast t) = cast2 cast (F_silu2 t).
Proof.
  intros Hc. unfold F_silu2, cast2. simpl. f_equal.
  rewrite <- !list_fmap_compose. apply list_fmap_ext. intros _ r _. simpl.
  rewrite <- !list_fmap_compose. apply list_fmap_ext. intros _ y _. simpl.
  symmetry. apply Hc.
Qed.

(** With a signal of the dtype of the weight the casts are the identity,
    and the engines with casts are the engines on one dtype. *)
Lemma cast3_id (t : Tensor3 T) : cast3 (fun y => y) t = t.
Proof.
  destruct t as [sh dat]. unfold cast3, map_rows. simpl. f_equal.
  apply fmap_id_ext. intros xb. apply fmap_id_ext. intros r. apply list_fmap_id.
Qed.

Lemma cast2_id (t : Tensor2 T) : cast2 (fun y => y) t = t.
Proof.
  destruct t as [sh dat]. unfold cast2. simpl. f_equal.
  apply fmap_id_ext. intros r. apply list_fmap_id.
Qed.

Lemma causal_conv1d_ref_cast_id (x : Tensor3 T) weight bias hidden activation :
  causal_conv1d_ref_cast (fun y => y) (fun y => y) x weight bias hidden activation
  = causal_conv1d_ref x weight bias hidden activation.
Proof.
  unfold causal_conv1d_ref_cast. rewrite cast3_id.
  replace (cast3 (fun y => y) <$> hidden) with hidden
    by (destruct hidden; simpl; by rewrite ?cast3_id).
  destruct (causal_conv1d_ref _ _ _ _ _); simpl; by rewrite ?cast3_id.
Qed.

Lemma causal_conv1d_update_ref_cast_id (x : Tensor2 T) conv_state weight bias activation :
  causal_conv1d_update_ref_cast (fun y => y) x conv_state weight bias activation
  = causal_conv1d_update_ref x conv_state weight bias activation.
Proof.
  unfold causal_conv1d_update_ref_cast.
  destruct (causal_conv1d_update_ref _ _ _ _ _) as [[o|e] st]; simpl;
    by rewrite ?cast2_id.
Qed.

End Fusion.

Section Errors.
Context {T : Type} `{Scalar T} `{CudaKernels T}.

Lemma activation_in_invalid (activation : option string) :
  activation ∉ [None; Some "silu"; Some "swish"] ->
  activation_in activation [None; Some "silu"; Some "swish"] = false.
Proof. intros Hn. unfold activation_in. by apply bool_decide_eq_false. Qed.

(** C8. With an activation outside of {None, "silu", "swish"} each of the
    four entry points raises [NotImplementedError] and leaves the context
    or the state buffer it was given untouched; with an activation of that
    set none of them raises [NotImplementedError]. *)
Theorem unsupported_activation_rejected (activation : option string) :
  (activation ∉ [None; Some "silu"; Some "swish"] ->
     (forall ctx x weight bias hidden seq_idx,
        CausalConv1dFn_forward ctx x weight bias hidden seq_idx activation
        = (Raise NotImplementedError, ctx)) /\
     (forall (x : Tensor3 T) weight bias hidden,
        causal_conv1d_ref x weight bias hidden activation
        = Raise NotImplementedError) /\
     (forall x conv_state weight bias,
        causal_conv1d_update x conv_state weight bias activation
        = (Raise NotImplementedError, conv_state)) /\
     (forall (x : Tensor2 T) conv_state weight bias,
        causal_conv1d_update_ref x conv_state weight bias activation
        = (Raise NotImplementedError, conv_state))) /\
  (activation ∈ [None; Some "silu"; Some "swish"] ->
     (forall ctx x weight bias hidden seq_idx,
        (CausalConv1dFn_forward ctx x weight bias hidden seq_idx activation).1
        <> Raise NotImplementedError) /\
     (forall (x : Tensor3 T) weight bias hidden,
        causal_conv1d_ref x weight bias hidden activation
        <> Raise NotImplementedError) /\
     (forall x conv_state weight bias,
        (causal_conv1d_update x conv_state weight bias activation).1
        <> Raise NotImplementedError) /\
     (forall (x : Tensor2 T) conv_state weight bias,
        (causal_conv1d_update_ref x conv_state weight bias activation).1
        <> Raise NotImplementedError)).
Proof.
  split.
  - intros Hn. pose proof (activation_in_invalid _ Hn) as Hf.
    unfold CausalConv1dFn_forward, causal_conv1d_ref, causal_conv1d_update,
      causal_conv1d_update_ref.
    rewrite Hf. simpl. done.
  - intros Hin. pose proof (activation_in_valid _ Hin) as Hv.
    unfold CausalConv1dFn_forward, causal_conv1d_ref, causal_conv1d_update,
      causal_conv1d_update_ref.
    rewrite Hv. simpl. repeat split.
    + intros ctx x weight bias hidden seq_idx.
      unfold no_unit_stride, stride.
      destruct (strides x !! 2) as [s2|]; simpl; [|done].
      destruct (bool_decide (s2 ≠ 1%Z)); simpl; [|done].
      by destruct (strides x !! 1).
    + intros x weight bias hidden.
      unfold F_conv1d_depthwise.
      destruct (shape2 weight) as [dim width].
      destruct (_ <? 0)%Z; simpl; [done|].
      destruct (shape3 _) as [[? ?] Lc]. simpl.
      destruct (bool_decide (Lc = 0)); simpl; [done|]. by destruct activation.
    + intros x conv_state weight bias.
      by destruct (cuda_causal_conv1d_update _ _ _ _ _).
    + intros x conv_state weight bias.
      destruct (shape2 x) as [batch dim].
      destruct (bool_decide _); simpl; [|done].
      destruct (bool_decide _); simpl; [|done].
      unfold setitem_last. simpl. destruct (shape3 conv_state) as [[? ?] W].
      destruct (bool_decide (W = 0)); simpl; [done|].
      destruct bias as [bv|]; [|by destruct activation].
      unfold iadd_bcast, torch_sum_last, mul_bcast. simpl.
      destruct (bool_decide (length bv = _)); [by destruct activation|].
      destruct (bool_decide (length bv = 1)); [by destruct activation|done].
Qed.
End Errors.



(** [unsupported_activation_rejected] on the example tensors. *)
Lemma unsupported_activation_rejected_witness :
  (CausalConv1dFn_forward fresh_ctx ex_signal ex_filter None None None (Some "relu")
   = (Raise NotImplementedError, fresh_ctx) /\
   causal_conv1d_ref ex_x ex_weight None None (Some "relu") = Raise NotImplementedError /\
   causal_conv1d_update ex_signal ex_dout ex_filter None (Some "relu")
   = (Raise NotImplementedError, ex_dout) /\
   causal_conv1d_update_ref ex_step ex_state ex_weight None (Some "relu")
   = (Raise NotImplementedError, ex_state)) /\
  causal_conv1d_ref ex_x ex_weight None None (Some "silu") <> Raise NotImplementedError.
Proof.
  assert (Hn : Some "relu" ∉ [None; Some "silu"; Some "swish"]).
  { intros Hin. apply activation_cases in Hin as [Hc|[Hc|Hc]]; discriminate Hc. }
  assert (Hs : Some "silu" ∈ [None; Some "silu"; Some "swish"]) by shape_facts.
  destruct (unsupported_activation_rejected (T := Z) (Some "relu")) as [Hbad _].
  destruct (unsupported_activation_rejected (T := Z) (Some "silu")) as [_ Hok].
  destruct (Hbad Hn) as (F & R & U & UR). destruct (Hok Hs) as (_ & R' & _).
  exact (conj (conj (F _ _ _ _ _ _) (conj (R _ _ _ _) (conj (U _ _ _ _) (UR _ _ _ _)))) (R' _ _ _ _)).
Defined.

Lemma dense_from_snoc dims n s z :
  dense_from (dims ++ [(n, s)]) z
  = dense_from dims z && (bool_decide (n = 1) || bool_decide (s = (z * span dims)%Z)).
Proof.
  revert z. induction dims as [|[m r] dims IH]; intros z; simpl.
  - rewrite Z.mul_1_r. destruct (bool_decide (n = 1)); simpl; [done|].
    by rewrite andb_true_r.
  - destruct (bool_decide (m = 1)); [apply IH|].
    rewrite IH, andb_assoc.
    by replace (z * (Z.of_nat m * span dims))%Z with (z * Z.of_nat m * span dims)%Z by lia.
Qed.

Lemma span_snoc dims n s :
  span (dims ++ [(n, s)]) = (span dims * (if bool_decide (n = 1%nat) then 1 else Z.of_nat n))%Z.
Proof.
  induction dims as [|[m r] dims IH]; simpl.
  - destruct (bool_decide (n = 1)); lia.
  - rewrite IH. destruct (bool_decide (m = 1)); lia.
Qed.

Lemma dense_strides_dense (szs : list nat) :
  Forall (fun n => 1 <= n) szs ->
  dense_from (reverse (zip szs (dense_strides szs))) 1 = true /\
  span (reverse (zip szs (dense_strides szs)))
  = Z.of_nat (foldr (fun n acc => Nat.max n 1 * acc) 1 szs).
Proof.
  induction 1 as [|n szs Hn _ [IH1 IH2]]; simpl; [done|].
  rewrite reverse_cons, dense_from_snoc, span_snoc, IH1, IH2. simpl. split.
  - apply orb_true_iff. right. apply bool_decide_eq_true. lia.
  - case_bool_decide; [subst; simpl|]; lia.
Qed.

Lemma numel_pos_sizes (szs : list nat) :
  foldr Nat.mul 1 szs <> 0 -> Forall (fun n => 1 <= n) szs.
Proof.
  induction szs as [|n szs IH]; simpl; intros Hne; constructor.
  - destruct n; [simpl in Hne|]; lia.
  - apply IH. lia.
Qed.

(** [t.contiguous()] is contiguous, with the sizes and elements of [t]. *)
Lemma contiguous_spec {A} (t : Strided A) :
  is_contiguous (contiguous t) = true /\
  sizes (contiguous t) = sizes t /\ elems (contiguous t) = elems t.
Proof.
  unfold contiguous. destruct (is_contiguous t) eqn:E; [done|].
  split; [|done]. unfold is_contiguous in *. simpl.
  apply orb_false_iff in E as [En _]. apply bool_decide_eq_false in En.
  apply orb_true_iff. right.
  apply dense_strides_dense, numel_pos_sizes. exact En.
Qed.

Section Backward.
Context {T : Type} `{CudaKernels T}.

Lemma no_unit_stride_rank3 (t : Strided T) :
  rank t 3 ->
  exists s1 s2, stride t 1 = Ok s1 /\ stride t 2 = Ok s2 /\
    no_unit_stride t = Ok (bool_decide (s2 ≠ 1%Z) && bool_decide (s1 ≠ 1%Z)).
Proof.
  intros [_ Hs]. unfold no_unit_stride, stride.
  destruct (strides t) as [|s0 [|s1 [|s2 [|? ?]]]]; simpl in *; try lia.
  exists s1, s2. repeat split. by destruct (bool_decide (s2 ≠ 1%Z)).
Qed.

(** The entries of a tuple of five, by the argument of [forward] they
    fall on. *)
Lemma grad_of_five {A} (a0 a1 a2 a3 a4 v : A) (arg : string) :
  grad_of [a0; a1; a2; a3; a4] arg = Some v ->
  (arg = "x" /\ v = a0) \/ (arg = "weight" /\ v = a1) \/ (arg = "bias" /\ v = a2) \/
  (arg = "hidden" /\ v = a3) \/ (arg = "seq_idx" /\ v = a4).
Proof.
  unfold grad_of, forward_args. simpl.
  repeat (case_decide; [subst arg; simpl; intros [= <-]; tauto|simpl]).
  done.
Qed.

(** C7. [CausalConv1dFn.backward], on a context filled by forward and an
    output gradient of rank 3, returns the tuple
    [(dx, dweight, dbias if bias is not None else None, None, None)]: the
    third entry is the bias gradient of the kernel exactly when a bias is
    in the checkpoint and None otherwise. The tuple has five entries for
    the six arguments of [forward]: by position its two last entries fall
    on [hidden] and [seq_idx], there is no entry for [activation], and the
    check of torch.autograd on the number of gradients rejects it. *)
Theorem backward_bias_gradient (ctx : Ctx T) (dout x weight : Strided T)
    (bias : option (Strided T)) (seq_idx : option (Strided Z)) (act : bool) :
  saved_tensors ctx = Some (x, weight, bias, seq_idx) ->
  ctx_activation ctx = Some act ->
  rank dout 3 ->
  let dout' := match no_unit_stride dout with
               | Ok true => contiguous dout
               | _ => dout
               end in
  let grads := cuda_causal_conv1d_bwd x weight bias dout' seq_idx None act in
  let tuple := [Some grads.1.1; Some grads.1.2;
                match bias with Some _ => grads.2 | None => None end;
                None; None] in
  CausalConv1dFn_backward ctx dout = Ok tuple /\
  length tuple = 5 /\ length forward_args = 6 /\
  grad_of tuple "bias" = Some (match bias with Some _ => grads.2 | None => None end) /\
  grad_of tuple "hidden" = Some None /\
  grad_of tuple "seq_idx" = Some None /\
  grad_of tuple "activation" = None /\
  autograd_check tuple = Raise RuntimeError.
Proof.
  intros Hsaved Hact Hrank dout' grads tuple.
  split; [|by repeat split].
  subst tuple grads dout'. unfold CausalConv1dFn_backward.
  rewrite Hsaved, Hact.
  destruct (no_unit_stride_rank3 dout Hrank) as (s1 & s2 & _ & _ & ->).
  simpl.
  destruct (bool_decide (s2 ≠ 1%Z) && bool_decide (s1 ≠ 1%Z));
    destruct (cuda_causal_conv1d_bwd _ _ _ _ _ _ _) as [[dx dweight] dbias];
    by destruct bias.
Qed.
End Backward.

(** [backward_bias_gradient] on the example tensors. *)
Lemma backward_bias_gradient_witness :
  let tuple := [Some ex_dout; Some ex_filter; Some ex_bias_strided; None; None] in
  CausalConv1dFn_backward
    (mkCtx (Some (ex_signal, ex_filter, Some ex_bias_strided, None)) (Some true)) ex_dout
  = Ok tuple /\
  length tuple = 5 /\ length forward_args = 6 /\
  grad_of tuple "bias" = Some (Some ex_bias_strided) /\
  grad_of tuple "hidden" = Some None /\
  grad_of tuple "seq_idx" = Some None /\
  grad_of tuple "activation" = None /\
  autograd_check tuple = Raise RuntimeError.
Proof.
  exact (backward_bias_gradient
           (mkCtx (Some (ex_signal, ex_filter, Some ex_bias_strided, None)) (Some true))
           ex_dout ex_signal ex_filter (Some ex_bias_strided) None true
           eq_refl eq_refl (conj eq_refl eq_refl)).
Defined.

Section Checkpoint.
Context {T : Type} `{CudaKernels T}.

(** C9, as amended. When the time axis or the channel axis of the signal
    has stride 1, [CausalConv1dFn.forward] saves and dispatches the signal
    as it is; when neither has, the engine itself replaces the signal by
    [x.contiguous()], a contiguous tensor with the same sizes and elements,
    and saves and dispatches that one. *)
Theorem forward_layout (ctx : Ctx T) (x weight : Strided T)
    (bias hidden : option (Strided T)) (seq_idx : option (Strided Z))
    (activation : option string) (s1 s2 : Z) :
  activation ∈ [None; Some "silu"; Some "swish"] ->
  stride x 1 = Ok s1 -> stride x 2 = Ok s2 ->
  let act := activation_in activation [Some "silu"; Some "swish"] in
  let x' := if bool_decide (s2 = 1%Z \/ s1 = 1%Z) then x else contiguous x in
  CausalConv1dFn_forward ctx x weight bias hidden seq_idx activation
  = (Ok (cuda_causal_conv1d_fwd x' weight (opt_contiguous bias) hidden
           (opt_contiguous seq_idx) act),
     mkCtx (Some (x', weight, opt_contiguous bias, opt_contiguous seq_idx)) (Some act)) /\
  is_contiguous (contiguous x) = true /\
  sizes (contiguous x) = sizes x /\ elems (contiguous x) = elems x.
Proof.
  intros Hact H1 H2 act x'. split; [|apply contiguous_spec].
  unfold CausalConv1dFn_forward. rewrite (activation_in_valid _ Hact). simpl.
  unfold no_unit_stride. rewrite H2. simpl. unfold x'.
  case_bool_decide as Hs2; simpl.
  - rewrite H1. simpl.
    case_bool_decide as Hs1; case_bool_decide as Hor; simpl; (done || lia).
  - case_bool_decide as Hor; simpl; (done || lia).
Qed.

(** C10, as amended. A forward call of [CausalConv1dFn] with an initial
    state saves the signal, the weight, the bias and the segment index and
    nothing else: the context it leaves is the same for every initial
    state, also for none. Backward on that context produces no gradient for
    the initial state: the entry of the returned tuple that falls on
    [hidden] is None, and the only arguments whose entry is a tensor are
    the signal, the weight and the bias. *)
Theorem hidden_not_checkpointed (ctx : Ctx T) (x weight : Strided T)
    (bias : option (Strided T)) (h : Strided T) (seq_idx : option (Strided Z))
    (activation : option string) :
  activation ∈ [None; Some "silu"; Some "swish"] ->
  rank x 3 ->
  let x' := match no_unit_stride x with
            | Ok true => contiguous x
            | _ => x
            end in
  let ctx' := mkCtx (Some (x', weight, opt_contiguous bias, opt_contiguous seq_idx))
                (Some (activation_in activation [Some "silu"; Some "swish"])) in
  (exists out,
     CausalConv1dFn_forward ctx x weight bias (Some h) seq_idx activation
     = (Ok out, ctx')) /\
  (forall hidden',
     (CausalConv1dFn_forward ctx x weight bias hidden' seq_idx activation).2 = ctx') /\
  (forall dout, rank dout 3 ->
     exists tuple,
       CausalConv1dFn_backward ctx' dout = Ok tuple /\
       grad_of tuple "hidden" = Some None /\
       forall arg g, grad_of tuple arg = Some (Some g) ->
         arg ∈ ["x"; "weight"; "bias"]%string).
Proof.
  intros Hact Hrank x' ctx'.
  destruct (no_unit_stride_rank3 x Hrank) as (s1 & s2 & _ & _ & Hn).
  assert (Hfwd : forall hidden', exists out,
            CausalConv1dFn_forward ctx x weight bias hidden' seq_idx activation
            = (Ok out, ctx')).
  { intros hidden'. unfold CausalConv1dFn_forward, ctx', x'.
    rewrite (activation_in_valid _ Hact), Hn. simpl.
    destruct (bool_decide (s2 ≠ 1%Z) && bool_decide (s1 ≠ 1%Z)); eauto. }
  split; [apply Hfwd|]. split.
  - intros hidden'. destruct (Hfwd hidden') as [out ->]. done.
  - intros dout Hd. unfold CausalConv1dFn_backward, ctx'. simpl.
    destruct (no_unit_stride_rank3 dout Hd) as (r1 & r2 & _ & _ & ->).
    destruct (cuda_causal_conv1d_bwd _ _ _ _ _ _ _) as [[dx dweight] dbias].
    eexists. split; [done|]. split; [done|].
    intros arg g Hg. apply grad_of_five in Hg.
    rewrite !elem_of_cons.
    destruct Hg as [[-> _]|[[-> _]|[[-> _]|[[_ Hg]|[_ Hg]]]]]; auto; discriminate Hg.
Qed.
End Checkpoint.

(** [forward_layout] on the example tensors. *)
Lemma forward_layout_witness :
  CausalConv1dFn_forward fresh_ctx ex_signal ex_filter None None None None
  = (Ok (contiguous ex_signal),
     mkCtx (Some (contiguous ex_signal, ex_filter, None, None)) (Some false)) /\
  is_contiguous (contiguous ex_signal) = true /\
  sizes (contiguous ex_signal) = sizes ex_signal /\
  elems (contiguous ex_signal) = elems ex_signal.
Proof.
  exact (forward_layout fresh_ctx ex_signal ex_filter None None None None 4 2
           ltac:(shape_facts) eq_refl eq_refl).
Defined.

(** [hidden_not_checkpointed] on the example tensors. *)
Lemma hidden_not_checkpointed_witness :
  let ctx' := mkCtx (Some (contiguous ex_signal, ex_filter, None, None)) (Some true) in
  (exists out,
     CausalConv1dFn_forward fresh_ctx ex_signal ex_filter None (Some ex_dout) None
       (Some "silu") = (Ok out, ctx')) /\
  (forall hidden',
     (CausalConv1dFn_forward fresh_ctx ex_signal ex_filter None hidden' None
        (Some "silu")).2 = ctx') /\
  (forall dout, rank dout 3 ->
     exists tuple,
       CausalConv1dFn_backward ctx' dout = Ok tuple /\
       grad_of tuple "hidden" = Some None /\
       forall arg g, grad_of tuple arg = Some (Some g) ->
         arg ∈ ["x"; "weight"; "bias"]%string).
Proof.
  exact (hidden_not_checkpointed fresh_ctx ex_signal ex_filter None ex_dout None
           (Some "silu") ltac:(shape_facts) (conj eq_refl eq_refl)).
Defined.

(** C10, as stated, fails on the entries of the returned tuple: backward on
    the context that a forward call with an initial state leaves returns
    five entries, which by position fall on the signal, the weight, the
    bias, the initial state and the segment index, and not on the signal,
    the weight, the bias, the segment index and the activation: the tuple
    has an entry, None, for [hidden] and none for [activation]. *)
Lemma backward_tuple_has_entry_for_hidden :
  exists ctx' tuple,
    (CausalConv1dFn_forward fresh_ctx ex_signal ex_filter None (Some ex_dout) None
       (Some "silu")).2 = ctx' /\
    CausalConv1dFn_backward ctx' ex_dout = Ok tuple /\
    args_with_entry tuple = ["x"; "weight"; "bias"; "hidden"; "seq_idx"]%string /\
    args_with_entry tuple <> ["x"; "weight"; "bias"; "seq_idx"; "activation"]%string /\
    grad_of tuple "hidden" = Some None /\
    grad_of tuple "activation" = None.
Proof.
  eexists _, _. split; [reflexivity|]. split; [reflexivity|].
  split; [reflexivity|]. split; [discriminate|]. split; reflexivity.
Qed.

(** C9, as stated, fails: on a signal whose time and channel strides are
    2 and 4 the engine normalizes the layout itself. With the stand-in
    kernels, whose forward hands back the signal it receives, the kernel is
    seen to receive, and the context to keep, a dense copy with strides
    (4, 2, 1) and not the signal the engine was called with. *)
Lemma forward_fixes_layout_itself :
  no_unit_stride ex_signal = Ok true /\
  CausalConv1dFn_forward fresh_ctx ex_signal ex_filter None None None None
  = (Ok (mkStrided [1; 2; 2] [4; 2; 1]%Z [1; 2; 3; 4]%Z),
     mkCtx (Some (mkStrided [1; 2; 2] [4; 2; 1]%Z [1; 2; 3; 4]%Z, ex_filter, None, None))
       (Some false)) /\
  mkStrided [1; 2; 2] [4; 2; 1]%Z [1; 2; 3; 4]%Z <> ex_signal.
Proof. repeat split. discriminate. Qed.

(** * More of the interface: properties *)

Section ForwardMore.
Context {T : Type} `{Scalar T}.

Lemma zget_zero_prefix (xs : list T) p (j : Z) :
  zget (replicate p s_zero ++ xs) j = zget xs (j - Z.of_nat p).
Proof.
  rewrite <- (zget_padded xs p 0). simpl. by rewrite app_nil_r.
Qed.

Lemma zeros3_rows B D W :
  has_shape3 (zeros3 B D W : Tensor3 T) B D W /\
  forall b d, b < B -> d < D -> row3 (zeros3 B D W) b d = replicate W s_zero.
Proof.
  assert (Rz : forall b d, b < B -> d < D ->
            row3 (zeros3 B D W) b d = replicate W (s_zero : T)).
  { intros b d Hb Hd. unfold row3, zeros3. simpl.
    rewrite !nth_lookup, !lookup_replicate_2 by done. simpl.
    by rewrite lookup_replicate_2. }
  split; [|done].
  apply has_shape3_intro; simpl; [done|by rewrite length_replicate|].
  intros b Hb. split.
  - rewrite nth_lookup, lookup_replicate_2 by done. simpl. by rewrite length_replicate.
  - intros d Hd. by rewrite Rz, length_replicate.
Qed.

(** One channel: two runs agree from the sample on where their taps read
    the same positions of their source streams. *)
Lemma ref_channel_ext (w : list T) bias d hs hs' xs xs' activation :
  1 <= length w -> length xs = length xs' ->
  (forall t k, t < length xs -> k < length w ->
     zget (hs ++ xs)
       (Z.of_nat (length hs) + (Z.of_nat t - (Z.of_nat (length w) - 1) + Z.of_nat k))
     = zget (hs' ++ xs')
         (Z.of_nat (length hs') + (Z.of_nat t - (Z.of_nat (length w) - 1) + Z.of_nat k))) ->
  ref_channel w bias d hs xs activation = ref_channel w bias d hs' xs' activation.
Proof.
  intros Hw Hlen Hpos. apply (nth_ext _ _ s_zero s_zero).
  { by rewrite !length_ref_channel. }
  intros t Ht. rewrite length_ref_channel in Ht by done.
  rewrite !ref_channel_nth by lia. f_equal.
  apply tap_acc_ext. intros k Hk. f_equal. by apply Hpos.
Qed.

Lemma ref_channel_zero_state (w : list T) bias d xs activation S :
  1 <= length w ->
  ref_channel w bias d (replicate S s_zero) xs activation
  = ref_channel w bias d [] xs activation.
Proof.
  intros Hw. apply ref_channel_ext; [done|done|]. intros t k Ht Hk.
  rewrite zget_zero_prefix, length_replicate. simpl. f_equal. lia.
Qed.

Lemma ref_channel_state_tail (w : list T) bias d hs xs activation :
  1 <= length w -> length w - 1 <= length hs ->
  ref_channel w bias d hs xs activation
  = ref_channel w bias d (drop (length hs - (length w - 1)) hs) xs activation.
Proof.
  intros Hw Hs. apply ref_channel_ext; [done|done|]. intros t k Ht Hk.
  rewrite <- drop_app_le by lia. rewrite length_drop, zget_drop by lia.
  f_equal. lia.
Qed.

Lemma ref_channel_state_reach (w : list T) bias d hs hs' xs activation :
  1 <= length w ->
  drop (length w - 1) (ref_channel w bias d hs xs activation)
  = drop (length w - 1) (ref_channel w bias d hs' xs activation).
Proof.
  intros Hw. apply (nth_ext _ _ s_zero s_zero).
  { by rewrite !length_drop, !length_ref_channel. }
  intros t Ht. rewrite length_drop, length_ref_channel in Ht by done.
  rewrite !nth_drop_add, !ref_channel_nth by lia. f_equal.
  apply tap_acc_ext. intros k Hk. f_equal.
  rewrite !zget_app_r by lia. f_equal. lia.
Qed.
End ForwardMore.

Section ForwardExtras.
Context {T : Type} `{Scalar T}.

(** X1. The reference forward is depthwise and batchwise: on signals with
    at least one timestep, row (b, d) of its output is fixed by row (b, d)
    of the signal and of the initial state and by row d of the weight (and
    the bias); the other batch entries and channels of the signal, the
    state and the weight do not reach it. *)
Theorem ref_depthwise (x x' : Tensor3 T) (weight weight' : Tensor2 T)
    (bias : option (list T)) (hidden hidden' : option (Tensor3 T))
    (activation : option string) (B D L W S b d : nat) :
  has_shape3 x B D L -> has_shape3 x' B D L ->
  has_shape2 weight D W -> has_shape2 weight' D W -> 1 <= W -> 1 <= L ->
  has_len bias D -> opt_shape3 hidden B D S -> opt_shape3 hidden' B D S ->
  activation ∈ [None; Some "silu"; Some "swish"] ->
  b < B -> d < D ->
  row3 x b d = row3 x' b d ->
  hidden_row hidden b d = hidden_row hidden' b d ->
  nth d (data2 weight) [] = nth d (data2 weight') [] ->
  exists out out',
    causal_conv1d_ref x weight bias hidden activation = Ok out /\
    causal_conv1d_ref x' weight' bias hidden' activation = Ok out' /\
    row3 out b d = row3 out' b d.
Proof.
  intros Hx Hx' Hw Hw' HW HL Hbias Hh Hh' Hact Hb Hd Ex Eh Ew.
  destruct (causal_conv1d_ref_rows x weight bias hidden activation B D L W S)
    as (out & E & _ & R); try done.
  destruct (causal_conv1d_ref_rows x' weight' bias hidden' activation B D L W S)
    as (out' & E' & _ & R'); try done.
  exists out, out'. repeat (split; [done|]).
  by rewrite R, R', Ex, Eh, Ew.
Qed.

(** X2. On a signal with at least one channel and one timestep, an initial
    state of zeros, of any width S, gives the output of the reference
    forward without initial state. *)
Theorem ref_zero_state (x : Tensor3 T) (weight : Tensor2 T)
    (bias : option (list T)) (activation : option string) (B D L W S : nat) :
  has_shape3 x B D L -> has_shape2 weight D W -> 1 <= W -> 1 <= D -> 1 <= L ->
  has_len bias D ->
  activation ∈ [None; Some "silu"; Some "swish"] ->
  exists out,
    causal_conv1d_ref x weight bias None activation = Ok out /\
    causal_conv1d_ref x weight bias (Some (zeros3 B D S)) activation = Ok out.
Proof.
  intros Hx Hw HW HD HL Hbias Hact.
  destruct (zeros3_rows (T := T) B D S) as [Sz Rz].
  destruct (causal_conv1d_ref_rows x weight bias None activation B D L W 0)
    as (out & E & So & R); try done.
  destruct (causal_conv1d_ref_rows x weight bias (Some (zeros3 B D S)) activation
              B D L W S) as (out' & E' & So' & R'); try done.
  { by intros h [= <-]. }
  exists out. split; [done|]. rewrite E'. f_equal.
  apply (tensor3_ext _ _ B D L So' So). intros b d Hb Hd.
  rewrite R, R' by done. simpl. rewrite Rz by done.
  apply ref_channel_zero_state.
  by rewrite (has_shape2_rows _ _ _ Hw d Hd).
Qed.

(** X3. Of an initial state of width S >= W-1 the reference forward, on a
    signal with at least one channel and one timestep, reads the last W-1
    samples only: cutting the state down to them leaves the output the
    same. *)
Theorem ref_state_tail (x : Tensor3 T) (weight : Tensor2 T)
    (bias : option (list T)) (h : Tensor3 T) (activation : option string)
    (B D L W S : nat) :
  has_shape3 x B D L -> has_shape2 weight D W -> 1 <= W -> 1 <= D -> 1 <= L ->
  has_len bias D ->
  has_shape3 h B D S -> W - 1 <= S ->
  activation ∈ [None; Some "silu"; Some "swish"] ->
  exists out,
    causal_conv1d_ref x weight bias (Some h) activation = Ok out /\
    causal_conv1d_ref x weight bias (Some (slice_from (S - (W - 1)) h)) activation
    = Ok out.
Proof.
  intros Hx Hw HW HD HL Hbias Hh HS Hact.
  destruct (slice_from_rows (S - (W - 1)) h B D S Hh) as [St Rt].
  replace (S - (S - (W - 1))) with (W - 1) in St by lia.
  destruct (causal_conv1d_ref_rows x weight bias (Some h) activation B D L W S)
    as (out & E & So & R); try done.
  { by intros ? [= <-]. }
  destruct (causal_conv1d_ref_rows x weight bias
              (Some (slice_from (S - (W - 1)) h)) activation B D L W (W - 1))
    as (out' & E' & So' & R'); try done.
  { by intros ? [= <-]. }
  exists out. split; [done|]. rewrite E'. f_equal.
  apply (tensor3_ext _ _ B D L So' So). intros b d Hb Hd.
  rewrite R, R' by done. simpl. rewrite Rt by done.
  pose proof (has_shape2_rows _ _ _ Hw d Hd) as Lw.
  pose proof (proj2 (has_shape3_rows _ _ _ _ Hh b Hb) d Hd) as Lh.
  rewrite (ref_channel_state_tail _ _ _ (row3 h b d)) by lia.
  by rewrite Lw, Lh.
Qed.

(** X4. The initial state reaches the first W-1 outputs only: on a signal
    with at least one channel and one timestep, with any two initial
    states (of any widths, or none) the outputs of the reference forward
    agree from timestep W-1 on. *)
Theorem ref_state_reach (x : Tensor3 T) (weight : Tensor2 T)
    (bias : option (list T)) (hidden hidden' : option (Tensor3 T))
    (activation : option string) (B D L W S S' : nat) :
  has_shape3 x B D L -> has_shape2 weight D W -> 1 <= W -> 1 <= D -> 1 <= L ->
  has_len bias D ->
  opt_shape3 hidden B D S -> opt_shape3 hidden' B D S' ->
  activation ∈ [None; Some "silu"; Some "swish"] ->
  exists out out',
    causal_conv1d_ref x weight bias hidden activation = Ok out /\
    causal_conv1d_ref x weight bias hidden' activation = Ok out' /\
    slice_from (W - 1) out = slice_from (W - 1) out'.
Proof.
  intros Hx Hw HW HD HL Hbias Hh Hh' Hact.
  destruct (causal_conv1d_ref_rows x weight bias hidden activation B D L W S)
    as (out & E & So & R); try done.
  destruct (causal_conv1d_ref_rows x weight bias hidden' activation B D L W S')
    as (out' & E' & So' & R'); try done.
  exists out, out'. repeat (split; [done|]).
  destruct (slice_from_rows (W - 1) out B D L So) as [S1 R1].
  destruct (slice_from_rows (W - 1) out' B D L So') as [S1' R1'].
  apply (tensor3_ext _ _ _ _ _ S1 S1'). intros b d Hb Hd.
  rewrite R1, R1', R, R' by done.
  rewrite <- (has_shape2_rows _ _ _ Hw d Hd).
  apply ref_channel_state_reach.
  by rewrite (has_shape2_rows _ _ _ Hw d Hd).
Qed.

(** X6. A filter of width 0 makes the reference forward raise
    [RuntimeError] whatever the other arguments: its padding [width - 1]
    is negative. *)
Theorem ref_no_taps (x : Tensor3 T) (weight : Tensor2 T)
    (bias : option (list T)) (hidden : option (Tensor3 T))
    (activation : option string) :
  activation ∈ [None; Some "silu"; Some "swish"] ->
  (shape2 weight).2 = 0 ->
  causal_conv1d_ref x weight bias hidden activation = Raise RuntimeError.
Proof.
  intros Hact Hw. unfold causal_conv1d_ref.
  rewrite (activation_in_valid _ Hact). simpl.
  destruct (shape2 weight) as [dim width]. simpl in Hw. subst width.
  reflexivity.
Qed.
End ForwardExtras.

Section ForwardExtrasExact.
Context {T : Type} `{Scalar T} `{!ExactArith T}.

(** X5. In exact arithmetic and without activation, the reference forward
    with a bias, on a signal with at least one channel and one timestep,
    is the reference forward without bias with [bias[d]] added to every
    sample of channel d. *)
Theorem ref_bias_separate (x : Tensor3 T) (weight : Tensor2 T) (bv : list T)
    (hidden : option (Tensor3 T)) (B D L W S : nat) :
  has_shape3 x B D L -> has_shape2 weight D W -> 1 <= W -> 1 <= D -> 1 <= L ->
  length bv = D -> opt_shape3 hidden B D S ->
  exists out0 out,
    causal_conv1d_ref x weight None hidden None = Ok out0 /\
    causal_conv1d_ref x weight (Some bv) hidden None = Ok out /\
    forall b d t, b < B -> d < D -> t < L ->
      get3 out b d t = s_add (get3 out0 b d t) (nth d bv s_zero).
Proof.
  intros Hx Hw HW HD HL Hbv Hh.
  assert (Hact : (None : option string) ∈ [None; Some "silu"; Some "swish"])
    by constructor.
  destruct (causal_conv1d_ref_rows x weight None hidden None B D L W S)
    as (out0 & E0 & _ & R0); try done.
  destruct (causal_conv1d_ref_rows x weight (Some bv) hidden None B D L W S)
    as (out & E & _ & R); try done.
  exists out0, out. repeat (split; [done|]).
  intros b d t Hb Hd Ht.
  pose proof (has_shape2_rows _ _ _ Hw d Hd) as Lw.
  pose proof (proj2 (has_shape3_rows _ _ _ _ Hx b Hb) d Hd) as Lx.
  change (get3 out b d t) with (nth t (row3 out b d) s_zero).
  change (get3 out0 b d t) with (nth t (row3 out0 b d) s_zero).
  rewrite R, R0 by done. rewrite !ref_channel_nth_exact by lia. reflexivity.
Qed.
End ForwardExtrasExact.

(** [ref_depthwise] on the example tensors. *)
Lemma ref_depthwise_witness :
  exists out out',
    causal_conv1d_ref ex_x ex_weight (Some ex_bias) None (Some "silu") = Ok out /\
    causal_conv1d_ref ex_x_other ex_weight (Some ex_bias) None (Some "silu") = Ok out' /\
    row3 out 0 0 = row3 out' 0 0.
Proof.
  apply (ref_depthwise ex_x ex_x_other ex_weight ex_weight (Some ex_bias) None None
           (Some "silu") 1 2 4 3 0 0 0); shape_facts.
Defined.

(** [ref_zero_state] on the example tensors. *)
Lemma ref_zero_state_witness :
  exists out,
    causal_conv1d_ref ex_x ex_weight (Some ex_bias) None None = Ok out /\
    causal_conv1d_ref ex_x ex_weight (Some ex_bias) (Some (zeros3 1 2 2)) None = Ok out.
Proof.
  apply (ref_zero_state ex_x ex_weight (Some ex_bias) None 1 2 4 3 2); shape_facts.
Defined.

(** [ref_state_tail] on the example tensors. *)
Lemma ref_state_tail_witness :
  exists out,
    causal_conv1d_ref ex_x ex_weight None (Some ex_state) None = Ok out /\
    causal_conv1d_ref ex_x ex_weight None (Some (slice_from (3 - (3 - 1)) ex_state)) None
    = Ok out.
Proof.
  apply (ref_state_tail ex_x ex_weight None ex_state None 1 2 4 3 3); shape_facts.
Defined.

(** [ref_state_reach] on the example tensors. *)
Lemma ref_state_reach_witness :
  exists out out',
    causal_conv1d_ref ex_x ex_weight None (Some ex_hidden) None = Ok out /\
    causal_conv1d_ref ex_x ex_weight None None None = Ok out' /\
    slice_from (3 - 1) out = slice_from (3 - 1) out'.
Proof.
  apply (ref_state_reach ex_x ex_weight None (Some ex_hidden) None None 1 2 4 3 2 0);
    shape_facts.
Defined.

(** [ref_bias_separate] on the example tensors. *)
Lemma ref_bias_separate_witness :
  exists out0 out,
    causal_conv1d_ref ex_x ex_weight None (Some ex_hidden) None = Ok out0 /\
    causal_conv1d_ref ex_x ex_weight (Some ex_bias) (Some ex_hidden) None = Ok out /\
    forall b d t, b < 1 -> d < 2 -> t < 4 ->
      get3 out b d t = s_add (get3 out0 b d t) (nth d ex_bias s_zero).
Proof.
  apply (ref_bias_separate ex_x ex_weight ex_bias (Some ex_hidden) 1 2 4 3 2);
    shape_facts.
Defined.

(** [ref_no_taps] on the example tensors. *)
Lemma ref_no_taps_witness :
  causal_conv1d_ref ex_x (mkT2 (2, 0) [[]; []]) None None (Some "silu")
  = Raise RuntimeError.
Proof.
  apply (ref_no_taps ex_x (mkT2 (2, 0) [[]; []]) None None (Some "silu")); shape_facts.
Defined.

Section UpdateExtras.
Context {T : Type} `{Scalar T}.

Lemma length_roll_vec shifts (l : list T) : length (roll_vec shifts l) = length l.
Proof.
  unfold roll_vec. rewrite length_app, length_drop, length_take. lia.
Qed.

Lemma torch_roll_no_slots (t : Tensor3 T) B D shifts :
  has_shape3 t B D 0 -> torch_roll t shifts = t.
Proof.
  intros Ht. unfold torch_roll. rewrite (proj1 Ht).
  destruct (map_rows_tensor (roll_vec shifts) t B D 0 0 Ht) as [Sr Rr].
  { intros r Hr. by rewrite length_roll_vec. }
  apply (tensor3_ext _ _ B D 0 Sr Ht). intros b d Hb Hd.
  rewrite Rr by done.
  pose proof (proj2 (has_shape3_rows _ _ _ _ Ht b Hb) d Hd) as Hlen.
  destruct (row3 t b d); [|simpl in Hlen; lia].
  unfold roll_vec. by rewrite drop_nil, take_nil.
Qed.

(** X7. With a supported activation the reference update raises
    [AssertionError], the state buffer untouched, exactly when the shape of
    the buffer is not (batch, dim, width) or the weight does not have dim
    rows; with matching shapes it raises [IndexError] when width is 0;
    otherwise it returns an output when the bias, if any, has length dim
    or 1, and raises [RuntimeError] when the bias has another length. *)
Theorem update_ref_errors (x : Tensor2 T) (conv_state : Tensor3 T)
    (weight : Tensor2 T) (bias : option (list T)) (activation : option string) :
  activation ∈ [None; Some "silu"; Some "swish"] ->
  let width := (shape2 weight).2 in
  let shapes_ok :=
    shape3 conv_state = ((shape2 x).1, (shape2 x).2, width) /\
    (shape2 weight).1 = (shape2 x).2 in
  let bias_ok :=
    match bias with
    | Some bv => length bv = (shape2 x).2 \/ length bv = 1
    | None => True
    end in
  let r := causal_conv1d_update_ref x conv_state weight bias activation in
  (~ shapes_ok -> r = (Raise AssertionError, conv_state)) /\
  (shapes_ok -> width = 0 -> r.1 = Raise IndexError) /\
  (shapes_ok -> width <> 0 -> bias_ok -> exists out, r.1 = Ok out) /\
  (shapes_ok -> width <> 0 -> ~ bias_ok -> r.1 = Raise RuntimeError).
Proof.
  intros Hact width shapes_ok bias_ok r. unfold r, shapes_ok, bias_ok, width.
  unfold causal_conv1d_update_ref. rewrite (activation_in_valid _ Hact). simpl.
  destruct (shape2 x) as [batch dim]. destruct (shape2 weight) as [wd wW] eqn:Ew.
  simpl. repeat split.
  - intros Hbad. case_bool_decide as Hs; simpl; [|done].
    case_bool_decide as Hw; simpl; [|done].
    exfalso. apply Hbad. split; [done|]. by injection Hw.
  - intros [Hs ->] ->. rewrite !bool_decide_eq_true_2 by done. simpl.
    unfold setitem_last, torch_roll. simpl. rewrite Hs. done.
  - intros [Hs ->] HW Hb. rewrite !bool_decide_eq_true_2 by done. simpl.
    unfold setitem_last, torch_roll. simpl. rewrite Hs.
    rewrite bool_decide_eq_false_2 by done. simpl.
    destruct bias as [bv|]; [|eauto].
    unfold iadd_bcast, torch_sum_last, mul_bcast. simpl.
    case_bool_decide as H1; [eauto|].
    case_bool_decide as H2; [eauto|]. tauto.
  - intros [Hs ->] HW Hb. rewrite !bool_decide_eq_true_2 by done. simpl.
    unfold setitem_last, torch_roll. simpl. rewrite Hs.
    rewrite bool_decide_eq_false_2 by done. simpl.
    destruct bias as [bv|]; [|tauto].
    unfold iadd_bcast, torch_sum_last, mul_bcast. simpl.
    case_bool_decide as H1; [tauto|].
    case_bool_decide as H2; [tauto|]. done.
Qed.

(** X8. A call of the reference update that raises [NotImplementedError],
    [AssertionError] or [IndexError] leaves a well-formed state buffer as
    it was. A call that raises [RuntimeError], on a bias that cannot be
    broadcast, comes after the write: it leaves the buffer rolled by one
    with the timestep in its last slot. *)
Theorem update_ref_failure_state (x : Tensor2 T) (conv_state : Tensor3 T)
    (weight : Tensor2 T) (bias : option (list T)) (activation : option string)
    (B D W : nat) (e : exn) :
  has_shape3 conv_state B D W ->
  let r := causal_conv1d_update_ref x conv_state weight bias activation in
  r.1 = Raise e ->
  (e <> RuntimeError -> r.2 = conv_state) /\
  (e = RuntimeError -> setitem_last (torch_roll conv_state (-1)) x = Ok r.2).
Proof.
  intros Hs r. unfold r, causal_conv1d_update_ref.
  destruct (negb (activation_in _ _)); [by intros [= <-]|].
  destruct (shape2 x) as [batch dim].
  destruct (negb (bool_decide _)); [by intros [= <-]|].
  destruct (negb (bool_decide _)); [by intros [= <-]|].
  destruct (setitem_last (torch_roll conv_state (-1)) x) as [ns|e'] eqn:Es.
  - destruct bias as [bv|]; [|by destruct activation].
    unfold iadd_bcast. destruct (shape2 _) as [? Do].
    destruct (bool_decide (length bv = Do)); [by destruct activation|].
    destruct (bool_decide (length bv = 1)); [by destruct activation|].
    simpl. intros [= <-]. done.
  - simpl. intros [= <-].
    unfold setitem_last in Es. simpl in Es. rewrite (proj1 Hs) in Es.
    case_bool_decide as HW; [|done]. injection Es as <-.
    split; [|done]. intros _. subst W. by apply (torch_roll_no_slots _ B D).
Qed.

(** X9. The reference update does not read the oldest slot of the state
    buffer: two buffers that agree on the slots [1 ..] give the same output
    and the same new buffer. *)
Theorem update_ref_oldest_slot_unread (x : Tensor2 T) (s s' : Tensor3 T)
    (weight : Tensor2 T) (bias : option (list T)) (activation : option string)
    (B D W : nat) :
  has_shape2 x B D -> has_shape3 s B D W -> has_shape3 s' B D W ->
  has_shape2 weight D W -> 1 <= W -> has_len bias D ->
  activation ∈ [None; Some "silu"; Some "swish"] ->
  slice_from 1 s = slice_from 1 s' ->
  causal_conv1d_update_ref x s weight bias activation
  = causal_conv1d_update_ref x s' weight bias activation.
Proof.
  intros Hx Hs Hs' Hw HW Hbias Hact Heq.
  destruct (causal_conv1d_update_ref_rows x s weight bias activation B D W)
    as (o & ns & E & So & Sn & R); try done.
  destruct (causal_conv1d_update_ref_rows x s' weight bias activation B D W)
    as (o' & ns' & E' & So' & Sn' & R'); try done.
  rewrite E, E'.
  assert (Hrows : forall b d, b < B -> d < D -> row3 ns b d = row3 ns' b d).
  { intros b d Hb Hd.
    rewrite (proj1 (R b d Hb Hd)), (proj1 (R' b d Hb Hd)). f_equal.
    rewrite <- (proj2 (slice_from_rows 1 s B D W Hs) b d Hb Hd).
    rewrite <- (proj2 (slice_from_rows 1 s' B D W Hs') b d Hb Hd).
    by rewrite Heq. }
  f_equal.
  - f_equal. apply (tensor2_ext _ _ B D So So'). intros b d Hb Hd.
    rewrite (proj2 (R b d Hb Hd)), (proj2 (R' b d Hb Hd)).
    by rewrite Hrows.
  - by apply (tensor3_ext _ _ B D W Sn Sn').
Qed.
End UpdateExtras.

(** [update_ref_errors] on the example tensors. *)
Lemma update_ref_errors_witness :
  causal_conv1d_update_ref ex_step ex_hidden ex_weight None None
  = (Raise AssertionError, ex_hidden) /\
  (exists out,
     (causal_conv1d_update_ref ex_step ex_state ex_weight (Some ex_bias) None).1
     = Ok out) /\
  (causal_conv1d_update_ref ex_step ex_state ex_weight (Some [1; 2; 3]%Z) None).1
  = Raise RuntimeError.
Proof.
  assert (Hact : (None : option string) ∈ [None; Some "silu"; Some "swish"])
    by shape_facts.
  split; [|split].
  - apply (proj1 (update_ref_errors ex_step ex_hidden ex_weight None None Hact)).
    intros [Hs _]. discriminate Hs.
  - apply (proj1 (proj2 (proj2
             (update_ref_errors ex_step ex_state ex_weight (Some ex_bias) None Hact))));
      [by split|discriminate|by left].
  - apply (proj2 (proj2 (proj2
             (update_ref_errors ex_step ex_state ex_weight (Some [1; 2; 3]%Z) None Hact))));
      [by split|discriminate|].
    simpl. intros [Hb|Hb]; discriminate Hb.
Defined.

(** [update_ref_failure_state] on the example tensors: a state buffer of
    the wrong shape is left as it is, a bias of three entries for two
    channels raises after the buffer has been advanced. *)
Lemma update_ref_failure_state_witness :
  (causal_conv1d_update_ref ex_step ex_hidden ex_weight None None).2 = ex_hidden /\
  setitem_last (torch_roll ex_state (-1)) ex_step
  = Ok (causal_conv1d_update_ref ex_step ex_state ex_weight (Some [1; 2; 3]%Z) None).2 /\
  (causal_conv1d_update_ref ex_step ex_state ex_weight (Some [1; 2; 3]%Z) None).2
  = mkT3 (1, 2, 3) [[[2; 3; 7]; [5; 6; 8]]]%Z.
Proof.
  split; [|split].
  - apply (update_ref_failure_state ex_step ex_hidden ex_weight None None 1 2 2
             AssertionError ltac:(shape_facts) eq_refl). discriminate.
  - exact (proj2 (update_ref_failure_state ex_step ex_state ex_weight
                    (Some [1; 2; 3]%Z) None 1 2 3 RuntimeError
                    ltac:(shape_facts) eq_refl) eq_refl).
  - reflexivity.
Defined.

(** [update_ref_oldest_slot_unread] on the example tensors. *)
Lemma update_ref_oldest_slot_unread_witness :
  causal_conv1d_update_ref ex_step ex_state ex_weight (Some ex_bias) None
  = causal_conv1d_update_ref ex_step ex_state' ex_weight (Some ex_bias) None.
Proof.
  apply (update_ref_oldest_slot_unread ex_step ex_state ex_state' ex_weight
           (Some ex_bias) None 1 2 3); shape_facts.
Defined.

Section Carried.
Context {T : Type} `{Scalar T}.

Lemma carried_state_rows (s0 x : Tensor3 T) B D L W t :
  has_shape3 s0 B D W -> has_shape3 x B D L -> t <= L ->
  has_shape3 (carried_state s0 x W t) B D W /\
  forall b d, b < B -> d < D ->
    row3 (carried_state s0 x W t) b d = take W (drop t (row3 s0 b d ++ row3 x b d)).
Proof.
  intros Hs Hx Ht. unfold carried_state.
  destruct (torch_cat_rows s0 x B D W L Hs Hx) as [Sc Rc].
  destruct (slice_from_rows t _ B D (W + L) Sc) as [Sf Rf].
  destruct (slice_to_rows W _ B D (W + L - t) Sf) as [St Rt].
  replace (W `min` (W + L - t)) with W in St by lia.
  split; [done|]. intros b d Hb Hd. by rewrite Rt, Rf, Rc.
Qed.

Lemma carried_state_0 (s0 x : Tensor3 T) B D L W :
  has_shape3 s0 B D W -> has_shape3 x B D L -> carried_state s0 x W 0 = s0.
Proof.
  intros Hs Hx.
  destruct (carried_state_rows s0 x B D L W 0 Hs Hx) as [Sc Rc]; [lia|].
  apply (tensor3_ext _ _ B D W Sc Hs). intros b d Hb Hd.
  rewrite Rc by done. rewrite drop_0.
  apply take_app_length'. symmetry. by apply (has_shape3_rows _ _ _ _ Hs b Hb).
Qed.

(** A window of [W] samples over a stream moves on by one. *)
Lemma window_shift_stream (l : list T) W t :
  t + W < length l -> 1 <= W ->
  drop 1 (take W (drop t l)) ++ [nth (t + W) l s_zero] = take W (drop (S t) l).
Proof.
  intros Ht HW. apply (nth_ext _ _ s_zero s_zero).
  { rewrite length_app, length_drop, !length_take, !length_drop. simpl. lia. }
  intros i Hi.
  rewrite length_app, length_drop, !length_take, !length_drop in Hi. simpl in Hi.
  assert (HiW : i < W) by lia.
  rewrite (nth_take_drop _ (S t)) by done.
  destruct (decide (i < W - 1)) as [Hlt|Hge].
  - rewrite app_nth1 by (rewrite length_drop, !length_take, !length_drop; lia).
    rewrite nth_drop_add, nth_take_drop by lia. f_equal. lia.
  - rewrite app_nth2 by (rewrite length_drop, !length_take, !length_drop; lia).
    rewrite length_drop, !length_take, !length_drop.
    replace (i - (W `min` (length l - t) - 1)) with 0 by lia. simpl.
    f_equal. lia.
Qed.

(** One call of the update engine on the carried state. *)
Lemma update_ref_on_carried (s0 x : Tensor3 T) (weight : Tensor2 T) bias activation
    B D L W t :
  has_shape3 s0 B D W -> has_shape3 x B D L -> has_shape2 weight D W ->
  1 <= W -> has_len bias D ->
  activation ∈ [None; Some "silu"; Some "swish"] ->
  t < L ->
  exists o,
    causal_conv1d_update_ref (select_last t x) (carried_state s0 x W t)
      weight bias activation
    = (Ok o, carried_state s0 x W (S t)) /\
    has_shape2 o B D /\
    forall b d, b < B -> d < D ->
      get2 o b d =
      act_of activation (add_bias bias d
        (vsum (zip_with s_mul (row3 (carried_state s0 x W (S t)) b d)
                 (nth d (data2 weight) [])))).
Proof.
  intros Hs Hx Hw HW Hbias Hact Ht.
  destruct (select_last_rows x B D L t Hx) as [Sx Gx].
  destruct (carried_state_rows s0 x B D L W t Hs Hx) as [Sc Rc]; [lia|].
  destruct (carried_state_rows s0 x B D L W (S t) Hs Hx) as [Sc' Rc']; [lia|].
  destruct (causal_conv1d_update_ref_rows (select_last t x) (carried_state s0 x W t)
              weight bias activation B D W) as (o & ns & Eu & Su & Sn & Ru); try done.
  assert (Hns : ns = carried_state s0 x W (S t)).
  { apply (tensor3_ext _ _ B D W Sn Sc'). intros b d Hb Hd.
    destruct (Ru b d Hb Hd) as [-> _]. rewrite Rc, Rc', Gx by done.
    pose proof (proj2 (has_shape3_rows _ _ _ _ Hs b Hb) d Hd) as Ls.
    pose proof (proj2 (has_shape3_rows _ _ _ _ Hx b Hb) d Hd) as Lx.
    rewrite <- window_shift_stream by (rewrite ?length_app; lia).
    do 2 f_equal. rewrite app_nth2 by (rewrite Ls; lia).
    rewrite Ls. unfold get3, row3. f_equal. lia. }
  subst ns. exists o. split; [done|]. split; [done|].
  intros b d Hb Hd. by destruct (Ru b d Hb Hd) as [_ ->].
Qed.

Lemma stream_update_ref_state (s0 x : Tensor3 T) (weight : Tensor2 T) bias activation
    B D L W n :
  has_shape3 s0 B D W -> has_shape3 x B D L -> has_shape2 weight D W ->
  1 <= W -> has_len bias D ->
  activation ∈ [None; Some "silu"; Some "swish"] ->
  forall t, t + n <= L ->
  (stream_update_ref ((fun i => select_last i x) <$> seq t n)
     (carried_state s0 x W t) weight bias activation).2
  = carried_state s0 x W (t + n).
Proof.
  intros Hs Hx Hw HW Hbias Hact.
  induction n as [|n IH]; intros t Ht; simpl.
  - by rewrite Nat.add_0_r.
  - destruct (update_ref_on_carried s0 x weight bias activation B D L W t)
      as (o & -> & _); try done; [lia|].
    specialize (IH (S t)).
    destruct (stream_update_ref _ _ _ _ _) as [outs st]. simpl in *.
    rewrite IH by lia. f_equal. lia.
Qed.

Lemma carried_state_end (s0 x : Tensor3 T) B D L W :
  has_shape3 s0 B D W -> has_shape3 x B D L ->
  carried_state s0 x W L = slice_from L (torch_cat s0 x).
Proof.
  intros Hs Hx.
  destruct (carried_state_rows s0 x B D L W L Hs Hx) as [Sc Rc]; [lia|].
  destruct (torch_cat_rows s0 x B D W L Hs Hx) as [Scat Rcat].
  destruct (slice_from_rows L _ B D (W + L) Scat) as [Sf Rf].
  replace (W + L - L) with W in Sf by lia.
  apply (tensor3_ext _ _ B D W Sc Sf). intros b d Hb Hd.
  rewrite Rc, Rf, Rcat by done.
  apply take_ge. rewrite length_drop, length_app.
  rewrite (proj2 (has_shape3_rows _ _ _ _ Hs b Hb) d Hd).
  rewrite (proj2 (has_shape3_rows _ _ _ _ Hx b Hb) d Hd). lia.
Qed.

(** X11. Streaming a signal of length L through the reference update from
    a state buffer [s0] leaves in the buffer the last W samples of [s0]
    followed by the signal. *)
Theorem stream_final_state (s0 x : Tensor3 T) (weight : Tensor2 T)
    (bias : option (list T)) (activation : option string) (B D L W : nat) :
  has_shape3 s0 B D W -> has_shape3 x B D L -> has_shape2 weight D W ->
  1 <= W -> has_len bias D ->
  activation ∈ [None; Some "silu"; Some "swish"] ->
  (stream_update_ref (timesteps x) s0 weight bias activation).2
  = slice_from L (torch_cat s0 x).
Proof.
  intros Hs Hx Hw HW Hbias Hact.
  unfold timesteps. rewrite (proj1 Hx). simpl.
  rewrite <- (carried_state_0 s0 x B D L W Hs Hx) at 1.
  rewrite (stream_update_ref_state s0 x weight bias activation B D L W L) by done.
  by apply (carried_state_end s0 x B D L W).
Qed.

(** X12. After at least W calls the state buffer holds the last W
    timesteps it was fed, whatever it held at the start. *)
Theorem stream_forgets_state (s0 x : Tensor3 T) (weight : Tensor2 T)
    (bias : option (list T)) (activation : option string) (B D L W : nat) :
  has_shape3 s0 B D W -> has_shape3 x B D L -> has_shape2 weight D W ->
  1 <= W -> has_len bias D ->
  activation ∈ [None; Some "silu"; Some "swish"] ->
  W <= L ->
  (stream_update_ref (timesteps x) s0 weight bias activation).2
  = slice_from (L - W) x.
Proof.
  intros Hs Hx Hw HW Hbias Hact HL.
  unfold timesteps. rewrite (proj1 Hx). simpl.
  rewrite <- (carried_state_0 s0 x B D L W Hs Hx) at 1.
  rewrite (stream_update_ref_state s0 x weight bias activation B D L W L) by done.
  destruct (carried_state_rows s0 x B D L W L Hs Hx) as [Sc Rc]; [lia|].
  destruct (slice_from_rows (L - W) x B D L Hx) as [Sf Rf].
  replace (L - (L - W)) with W in Sf by lia.
  apply (tensor3_ext _ _ B D W Sc Sf). intros b d Hb Hd.
  rewrite Rc, Rf by done.
  pose proof (proj2 (has_shape3_rows _ _ _ _ Hs b Hb) d Hd) as Ls.
  pose proof (proj2 (has_shape3_rows _ _ _ _ Hx b Hb) d Hd) as Lx.
  rewrite drop_app_ge by lia. rewrite Ls.
  apply take_ge. rewrite length_drop. lia.
Qed.
End Carried.

(** [stream_final_state] on the example tensors. *)
Lemma stream_final_state_witness :
  (stream_update_ref (timesteps ex_x) ex_state ex_weight None None).2
  = slice_from 4 (torch_cat ex_state ex_x).
Proof.
  apply (stream_final_state ex_state ex_x ex_weight None None 1 2 4 3); shape_facts.
Defined.

(** [stream_forgets_state] on the example tensors. *)
Lemma stream_forgets_state_witness :
  (stream_update_ref (timesteps ex_x) ex_state ex_weight None None).2
  = slice_from (4 - 3) ex_x.
Proof.
  apply (stream_forgets_state ex_state ex_x ex_weight None None 1 2 4 3); shape_facts.
Defined.

Section StreamingFromState.
Context {T : Type} `{Scalar T} `{!ExactArith T}.

Lemma update_ref_on_carried_out (s0 x : Tensor3 T) (weight : Tensor2 T) bias activation
    (out : Tensor3 T) B D L W t :
  has_shape3 s0 B D W -> has_shape3 x B D L -> has_shape2 weight D W ->
  1 <= W -> has_len bias D ->
  activation ∈ [None; Some "silu"; Some "swish"] ->
  causal_conv1d_ref x weight bias (Some s0) activation = Ok out ->
  t < L ->
  causal_conv1d_update_ref (select_last t x) (carried_state s0 x W t)
    weight bias activation
  = (Ok (select_last t out), carried_state s0 x W (S t)).
Proof.
  intros Hs Hx Hw HW Hbias Hact Hout Ht.
  assert (HL : 1 <= L) by lia.
  destruct (causal_conv1d_ref_rows x weight bias (Some s0) activation B D L W W)
    as (out' & E & So & Ro); try done.
  { by intros ? [= <-]. }
  rewrite Hout in E. injection E as <-.
  destruct (select_last_rows out B D L t So) as [Sso Gso].
  destruct (carried_state_rows s0 x B D L W (S t) Hs Hx) as [Sc Rc]; [lia|].
  destruct (update_ref_on_carried s0 x weight bias activation B D L W t)
    as (o & -> & Su & Go); try done.
  do 2 f_equal. apply (tensor2_ext _ _ B D Su Sso). intros b d Hb Hd.
  rewrite Go, Gso by done.
  pose proof (has_shape2_rows _ _ _ Hw d Hd) as Lw.
  pose proof (proj2 (has_shape3_rows _ _ _ _ Hx b Hb) d Hd) as Lx.
  pose proof (proj2 (has_shape3_rows _ _ _ _ Hs b Hb) d Hd) as Ls.
  change (get3 out b d t) with (nth t (row3 out b d) s_zero).
  rewrite Ro by done. simpl. rewrite ref_channel_nth_exact by lia. do 2 f_equal.
  rewrite (zip_with_seq _ _ _ W s_zero s_zero);
    [|by apply (has_shape3_rows _ _ _ _ Sc b Hb)|done].
  rewrite Lw. apply tap_sum_ext. intros k Hk.
  rewrite s_mul_comm. f_equal. rewrite Rc by done.
  rewrite nth_take_drop by done. rewrite <- zget_nat. f_equal. lia.
Qed.

Lemma stream_update_ref_carried (s0 x : Tensor3 T) (weight : Tensor2 T) bias activation
    (out : Tensor3 T) B D L W n :
  has_shape3 s0 B D W -> has_shape3 x B D L -> has_shape2 weight D W ->
  1 <= W -> has_len bias D ->
  activation ∈ [None; Some "silu"; Some "swish"] ->
  causal_conv1d_ref x weight bias (Some s0) activation = Ok out ->
  forall t, t + n <= L ->
  (stream_update_ref ((fun i => select_last i x) <$> seq t n)
     (carried_state s0 x W t) weight bias activation).1
  = (fun i => Ok (select_last i out)) <$> seq t n.
Proof.
  intros Hs Hx Hw HW Hbias Hact Hout.
  induction n as [|n IH]; intros t Ht; simpl; [done|].
  rewrite (update_ref_on_carried_out s0 x weight bias activation out B D L W t)
    by (done || lia).
  specialize (IH (S t)).
  destruct (stream_update_ref _ _ _ _ _) as [outs st]. simpl in *.
  by rewrite IH by lia.
Qed.

(** X10. In exact arithmetic, streaming a signal with at least one channel
    through the reference update from any state buffer [s0] of shape
    (B, D, W) returns at call [t] the timestep [t] of the reference forward
    of the signal with [s0] as initial state. *)
Theorem streaming_from_state (s0 x : Tensor3 T) (weight : Tensor2 T)
    (bias : option (list T)) (activation : option string) (B D L W : nat) :
  has_shape3 s0 B D W -> has_shape3 x B D L -> has_shape2 weight D W ->
  1 <= W -> 1 <= D -> has_len bias D ->
  activation ∈ [None; Some "silu"; Some "swish"] ->
  exists out,
    causal_conv1d_ref x weight bias (Some s0) activation = Ok out /\
    (stream_update_ref (timesteps x) s0 weight bias activation).1
    = (fun t => Ok (select_last t out)) <$> seq 0 L.
Proof.
  intros Hs Hx Hw HW HD Hbias Hact.
  destruct (causal_conv1d_ref_rows_from x weight bias (Some s0) activation B D L W W)
    as (out & E & _ & _); try done.
  { by intros ? [= <-]. }
  { lia. }
  exists out. split; [done|].
  unfold timesteps. rewrite (proj1 Hx). simpl.
  rewrite <- (carried_state_0 s0 x B D L W Hs Hx) at 1.
  by apply (stream_update_ref_carried s0 x weight bias activation out B D L W L).
Qed.

(** One channel: the forward of a tail of the signal, seeded with the [W]
    samples before it, continues the forward of the whole signal. *)
Lemma ref_channel_continue (w : list T) bias d xs activation p t :
  1 <= length w -> length w <= p -> p + t < length xs ->
  nth t (ref_channel w bias d (drop (p - length w) (take p xs)) (drop p xs) activation)
    s_zero
  = nth (p + t) (ref_channel w bias d [] xs activation) s_zero.
Proof.
  intros Hw Hp Ht.
  assert (Hhs : length (drop (p - length w) (take p xs)) = length w).
  { rewrite length_drop, length_take. lia. }
  assert (Hcat : drop (p - length w) (take p xs) ++ drop p xs = drop (p - length w) xs).
  { rewrite <- (take_drop p xs) at 3.
    by rewrite drop_app_le by (rewrite length_take; lia). }
  rewrite !ref_channel_nth by (rewrite ?length_drop; lia). f_equal.
  apply tap_acc_ext. intros k Hk. f_equal.
  rewrite Hcat, Hhs. simpl. rewrite zget_drop by lia. f_equal. lia.
Qed.

(** X13. Prefill then decode, in exact arithmetic: streaming the timesteps
    of a signal with at least one channel from position p on
    (W <= p <= L) through the reference update, from the state buffer made
    of the W samples before p, returns the timesteps p, p+1, ... of the
    reference forward of the whole signal. *)
Theorem prefill_then_stream (x : Tensor3 T) (weight : Tensor2 T)
    (bias : option (list T)) (activation : option string) (B D L W p : nat) :
  has_shape3 x B D L -> has_shape2 weight D W -> 1 <= W -> 1 <= D -> has_len bias D ->
  activation ∈ [None; Some "silu"; Some "swish"] ->
  W <= p -> p <= L ->
  let state := slice_from (p - W) (slice_to p x) in
  exists out,
    causal_conv1d_ref x weight bias None activation = Ok out /\
    (stream_update_ref (timesteps (slice_from p x)) state weight bias activation).1
    = (fun t => Ok (select_last (p + t) out)) <$> seq 0 (L - p).
Proof.
  intros Hx Hw HW HD Hbias Hact Hp HpL state.
  destruct (slice_to_rows p x B D L Hx) as [S1 R1].
  replace (p `min` L) with p in S1 by lia.
  destruct (slice_from_rows (p - W) _ B D p S1) as [Ss Rs]. fold state in Ss, Rs.
  replace (p - (p - W)) with W in Ss by lia.
  destruct (slice_from_rows p x B D L Hx) as [S2 R2].
  destruct (causal_conv1d_ref_rows x weight bias None activation B D L W 0)
    as (out & E & So & Ro); try done.
  { lia. }
  destruct (causal_conv1d_ref_rows_from (slice_from p x) weight bias (Some state)
              activation B D (L - p) W W) as (out2 & E2 & So2 & Ro2); try done.
  { by intros ? [= <-]. }
  { lia. }
  exists out. split; [done|].
  unfold timesteps. rewrite (proj1 S2). simpl.
  rewrite <- (carried_state_0 state (slice_from p x) B D (L - p) W Ss S2) at 1.
  rewrite (stream_update_ref_carried state (slice_from p x) weight bias activation out2
             B D (L - p) W (L - p)) by done.
  apply list_fmap_ext. intros i t Hi. apply lookup_seq in Hi as [Et Hlt].
  simpl in Et. subst i.
  f_equal.
  destruct (select_last_rows out2 B D (L - p) t So2) as [Sa Ga].
  destruct (select_last_rows out B D L (p + t) So) as [Sb Gb].
  apply (tensor2_ext _ _ B D Sa Sb). intros b d Hb Hd.
  rewrite Ga, Gb by done.
  change (get3 out2 b d t) with (nth t (row3 out2 b d) s_zero).
  change (get3 out b d (p + t)) with (nth (p + t) (row3 out b d) s_zero).
  rewrite Ro, Ro2 by done. simpl. rewrite Rs, R1, R2 by done.
  pose proof (has_shape2_rows _ _ _ Hw d Hd) as Lw.
  pose proof (proj2 (has_shape3_rows _ _ _ _ Hx b Hb) d Hd) as Lx.
  rewrite <- Lw. apply ref_channel_continue; lia.
Qed.
End StreamingFromState.

(** [streaming_from_state] on the example tensors. *)
Lemma streaming_from_state_witness :
  exists out,
    causal_conv1d_ref ex_x ex_weight (Some ex_bias) (Some ex_state) (Some "silu") = Ok out /\
    (stream_update_ref (timesteps ex_x) ex_state ex_weight (Some ex_bias) (Some "silu")).1
    = (fun t => Ok (select_last t out)) <$> seq 0 4.
Proof.
  apply (streaming_from_state ex_state ex_x ex_weight
           (Some ex_bias) (Some "silu") 1 2 4 3); shape_facts.
Defined.

(** [prefill_then_stream] on the example tensors. *)
Lemma prefill_then_stream_witness :
  exists out,
    causal_conv1d_ref ex_x ex_weight (Some ex_bias) None None = Ok out /\
    (stream_update_ref (timesteps (slice_from 3 ex_x))
       (slice_from (3 - 3) (slice_to 3 ex_x)) ex_weight (Some ex_bias) None).1
    = (fun t => Ok (select_last (3 + t) out)) <$> seq 0 (4 - 3).
Proof.
  apply (prefill_then_stream ex_x ex_weight (Some ex_bias)
           None 1 2 4 3 3); shape_facts.
Defined.

Section DispatchExtras.
Context {T : Type} `{CudaKernels T}.

Lemma dispatched_layout (t : Strided T) :
  rank t 3 ->
  kernel_layout (dispatched t) /\
  sizes (dispatched t) = sizes t /\ elems (dispatched t) = elems t.
Proof.
  intros Hr. unfold dispatched, kernel_layout.
  destruct (no_unit_stride_rank3 t Hr) as (s1 & s2 & H1 & H2 & ->).
  destruct (contiguous_spec t) as (Hc & Hs & He).
  case_bool_decide as Hs2; simpl.
  - case_bool_decide as Hs1; simpl; [auto|].
    split; [|done]. right. left. rewrite H1. f_equal. lia.
  - split; [|done]. left. rewrite H2. f_equal. lia.
Qed.

Lemma opt_contiguous_is_contiguous {A} (o : option (Strided A)) t :
  opt_contiguous o = Some t -> is_contiguous t = true.
Proof.
  destruct o as [u|]; simpl; [|done]. intros [= <-]. apply contiguous_spec.
Qed.

Lemma forward_rank3 (ctx : Ctx T) (x weight : Strided T)
    (bias hidden : option (Strided T)) (seq_idx : option (Strided Z))
    (activation : option string) :
  activation ∈ [None; Some "silu"; Some "swish"] -> rank x 3 ->
  CausalConv1dFn_forward ctx x weight bias hidden seq_idx activation
  = (Ok (cuda_causal_conv1d_fwd (dispatched x) weight (opt_contiguous bias) hidden
           (opt_contiguous seq_idx)
           (activation_in activation [Some "silu"; Some "swish"])),
     mkCtx (Some (dispatched x, weight, opt_contiguous bias, opt_contiguous seq_idx))
       (Some (activation_in activation [Some "silu"; Some "swish"]))).
Proof.
  intros Hact Hr. unfold CausalConv1dFn_forward, dispatched.
  rewrite (activation_in_valid _ Hact). simpl.
  destruct (no_unit_stride_rank3 x Hr) as (s1 & s2 & _ & _ & ->).
  by destruct (bool_decide (s2 ≠ 1%Z) && bool_decide (s1 ≠ 1%Z)).
Qed.

Lemma backward_rank3 (x weight : Strided T) (bias : option (Strided T))
    (seq_idx : option (Strided Z)) (act : bool) (dout : Strided T) :
  rank dout 3 ->
  let grads := cuda_causal_conv1d_bwd x weight bias (dispatched dout) seq_idx None act in
  CausalConv1dFn_backward (mkCtx (Some (x, weight, bias, seq_idx)) (Some act)) dout
  = Ok [Some grads.1.1; Some grads.1.2;
        match bias with Some _ => grads.2 | None => None end;
        None; None].
Proof.
  intros Hr. unfold CausalConv1dFn_backward, dispatched. simpl.
  destruct (no_unit_stride_rank3 dout Hr) as (s1 & s2 & _ & _ & ->).
  destruct (bool_decide (s2 ≠ 1%Z) && bool_decide (s1 ≠ 1%Z));
    destruct (cuda_causal_conv1d_bwd _ _ _ _ _ _ _) as [[dx dweight] dbias];
    by destruct bias.
Qed.

(** X14. [CausalConv1dFn.backward] on the context left by a forward call
    hands to the backward kernel the signal, the bias and the segment
    index in the layout the forward kernel received them, the weight, and
    the activation flag of the forward call; the bias gradient is returned
    exactly when forward had a bias. *)
Theorem forward_then_backward (ctx : Ctx T) (x weight : Strided T)
    (bias hidden : option (Strided T)) (seq_idx : option (Strided Z))
    (activation : option string) (dout : Strided T) :
  activation ∈ [None; Some "silu"; Some "swish"] ->
  rank x 3 -> rank dout 3 ->
  let act := activation_in activation [Some "silu"; Some "swish"] in
  let fwd := CausalConv1dFn_forward ctx x weight bias hidden seq_idx activation in
  let grads :=
    cuda_causal_conv1d_bwd (dispatched x) weight (opt_contiguous bias)
      (dispatched dout) (opt_contiguous seq_idx) None act in
  fwd.1 = Ok (cuda_causal_conv1d_fwd (dispatched x) weight (opt_contiguous bias)
                hidden (opt_contiguous seq_idx) act) /\
  CausalConv1dFn_backward fwd.2 dout
  = Ok [Some grads.1.1; Some grads.1.2;
        match bias with Some _ => grads.2 | None => None end;
        None; None].
Proof.
  intros Hact Hx Hd act fwd grads. unfold fwd.
  rewrite forward_rank3 by done. simpl. split; [done|].
  rewrite backward_rank3 by done. simpl. by destruct bias.
Qed.

(** X15. The kernels only see supported layouts: the signal that reaches
    the forward kernel and the output gradient that reaches the backward
    kernel have stride 1 along time or along channel, or are contiguous,
    and keep the sizes and elements the caller passed; bias and segment
    index reach the kernels contiguous. *)
Theorem kernels_get_supported_layouts (ctx : Ctx T) (x weight : Strided T)
    (bias hidden : option (Strided T)) (seq_idx : option (Strided Z))
    (activation : option string) (dout : Strided T) :
  activation ∈ [None; Some "silu"; Some "swish"] ->
  rank x 3 -> rank dout 3 ->
  exists x' bias' seq_idx' dout',
    let act := activation_in activation [Some "silu"; Some "swish"] in
    let fwd := CausalConv1dFn_forward ctx x weight bias hidden seq_idx activation in
    let grads := cuda_causal_conv1d_bwd x' weight bias' dout' seq_idx' None act in
    fwd.1 = Ok (cuda_causal_conv1d_fwd x' weight bias' hidden seq_idx' act) /\
    CausalConv1dFn_backward fwd.2 dout
    = Ok [Some grads.1.1; Some grads.1.2;
          match bias with Some _ => grads.2 | None => None end;
          None; None] /\
    kernel_layout x' /\ sizes x' = sizes x /\ elems x' = elems x /\
    kernel_layout dout' /\ sizes dout' = sizes dout /\ elems dout' = elems dout /\
    (forall t, bias' = Some t -> is_contiguous t = true) /\
    (forall t, seq_idx' = Some t -> is_contiguous t = true).
Proof.
  intros Hact Hx Hd.
  exists (dispatched x), (opt_contiguous bias), (opt_contiguous seq_idx), (dispatched dout).
  simpl. rewrite forward_rank3 by done. simpl.
  split; [done|]. split.
  { rewrite backward_rank3 by done. simpl. by destruct bias. }
  destruct (dispatched_layout x Hx) as (? & ? & ?).
  destruct (dispatched_layout dout Hd) as (? & ? & ?).
  repeat (split; [done|]).
  split; intros t; apply opt_contiguous_is_contiguous.
Qed.

(** X17. [causal_conv1d_fn] raises [NotImplementedError] for an unsupported
    activation, else [IndexError] for a signal with fewer than three axes;
    for a signal of rank 3 it returns the output of the forward kernel on
    the signal, made contiguous when neither its time nor its channel axis
    has stride 1. *)
Theorem causal_conv1d_fn_outcomes (x weight : Strided T)
    (bias hidden : option (Strided T)) (seq_idx : option (Strided Z))
    (activation : option string) :
  let r := causal_conv1d_fn x weight bias hidden seq_idx activation in
  (activation ∉ [None; Some "silu"; Some "swish"] -> r = Raise NotImplementedError) /\
  (activation ∈ [None; Some "silu"; Some "swish"] -> length (strides x) < 3 ->
     r = Raise IndexError) /\
  (activation ∈ [None; Some "silu"; Some "swish"] -> rank x 3 ->
     r = Ok (cuda_causal_conv1d_fwd (dispatched x) weight (opt_contiguous bias) hidden
               (opt_contiguous seq_idx)
               (activation_in activation [Some "silu"; Some "swish"]))).
Proof.
  unfold causal_conv1d_fn. repeat split.
  - intros Hn. unfold CausalConv1dFn_forward.
    by rewrite (activation_in_invalid _ Hn).
  - intros Hact Hlen. unfold CausalConv1dFn_forward.
    rewrite (activation_in_valid _ Hact). simpl.
    unfold no_unit_stride, stride.
    by rewrite (lookup_ge_None_2 (strides x) 2) by lia.
  - intros Hact Hr. by rewrite forward_rank3.
Qed.

(** X18. "swish" is another name of "silu": every entry point does with
    the one what it does with the other. *)
Theorem swish_is_silu `{Scalar T} :
  (forall ctx x weight bias hidden seq_idx,
     CausalConv1dFn_forward ctx x weight bias hidden seq_idx (Some "swish")
     = CausalConv1dFn_forward ctx x weight bias hidden seq_idx (Some "silu")) /\
  (forall x weight bias hidden seq_idx,
     causal_conv1d_fn x weight bias hidden seq_idx (Some "swish")
     = causal_conv1d_fn x weight bias hidden seq_idx (Some "silu")) /\
  (forall (x : Tensor3 T) weight bias hidden,
     causal_conv1d_ref x weight bias hidden (Some "swish")
     = causal_conv1d_ref x weight bias hidden (Some "silu")) /\
  (forall x conv_state weight bias,
     causal_conv1d_update x conv_state weight bias (Some "swish")
     = causal_conv1d_update x conv_state weight bias (Some "silu")) /\
  (forall (x : Tensor2 T) conv_state weight bias,
     causal_conv1d_update_ref x conv_state weight bias (Some "swish")
     = causal_conv1d_update_ref x conv_state weight bias (Some "silu")).
Proof. repeat split. Qed.
End DispatchExtras.

(** [forward_then_backward] on the example tensors. *)
Lemma forward_then_backward_witness :
  (CausalConv1dFn_forward fresh_ctx ex_signal ex_filter (Some ex_bias_strided) None None
     (Some "silu")).1 = Ok (contiguous ex_signal) /\
  CausalConv1dFn_backward
    (CausalConv1dFn_forward fresh_ctx ex_signal ex_filter (Some ex_bias_strided) None None
       (Some "silu")).2 ex_dout
  = Ok [Some ex_dout; Some ex_filter; Some ex_bias_strided; None; None].
Proof.
  exact (forward_then_backward fresh_ctx ex_signal ex_filter (Some ex_bias_strided)
           None None (Some "silu") ex_dout
           ltac:(shape_facts) (conj eq_refl eq_refl) (conj eq_refl eq_refl)).
Defined.

(** [kernels_get_supported_layouts] on the example tensors. *)
Lemma kernels_get_supported_layouts_witness :
  exists x' bias' seq_idx' dout',
    (CausalConv1dFn_forward fresh_ctx ex_signal ex_filter None None None None).1
    = Ok (cuda_causal_conv1d_fwd x' ex_filter bias' None seq_idx' false) /\
    CausalConv1dFn_backward
      (CausalConv1dFn_forward fresh_ctx ex_signal ex_filter None None None None).2 ex_dout
    = Ok [Some (cuda_causal_conv1d_bwd x' ex_filter bias' dout' seq_idx' None false).1.1;
          Some (cuda_causal_conv1d_bwd x' ex_filter bias' dout' seq_idx' None false).1.2;
          None; None; None] /\
    kernel_layout x' /\ sizes x' = sizes ex_signal /\ elems x' = elems ex_signal /\
    kernel_layout dout' /\ sizes dout' = sizes ex_dout /\ elems dout' = elems ex_dout /\
    (forall t, bias' = Some t -> is_contiguous t = true) /\
    (forall t, seq_idx' = Some t -> is_contiguous t = true).
Proof.
  exact (kernels_get_supported_layouts fresh_ctx ex_signal ex_filter None None None None
           ex_dout ltac:(shape_facts) (conj eq_refl eq_refl) (conj eq_refl eq_refl)).
Defined.

(** [causal_conv1d_fn_outcomes] on the example tensors. *)
Lemma causal_conv1d_fn_outcomes_witness :
  causal_conv1d_fn ex_signal ex_filter None None None (Some "relu")
  = Raise NotImplementedError /\
  causal_conv1d_fn ex_bias_strided ex_filter None None None None = Raise IndexError /\
  causal_conv1d_fn ex_signal ex_filter None None None (Some "silu")
  = Ok (contiguous ex_signal).
Proof.
  assert (Hn : Some "relu" ∉ [None; Some "silu"; Some "swish"]).
  { intros Hin. apply activation_cases in Hin as [Hc|[Hc|Hc]]; discriminate Hc. }
  split; [|split].
  - exact (proj1 (causal_conv1d_fn_outcomes ex_signal ex_filter None None None
                    (Some "relu")) Hn).
  - exact (proj1 (proj2 (causal_conv1d_fn_outcomes ex_bias_strided ex_filter None None
                           None None)) ltac:(shape_facts) ltac:(shape_facts)).
  - exact (proj2 (proj2 (causal_conv1d_fn_outcomes ex_signal ex_filter None None None
                           (Some "silu"))) ltac:(shape_facts) (conj eq_refl eq_refl)).
Defined.

